(** * A shallow embedding of the chat server (server/index.js)

    The development follows the layout of the source file: the tables of the
    SQL schema, the Prisma calls the handlers issue, the REST handlers and
    the Socket.IO event handlers.  Handlers are written in a small state and
    exception monad over the server state (database, Socket.IO rooms, the
    log of issued queries, and the events emitted so far).

    Modelling choices:
    - text is [string]; the built-in [toLowerCase] is an argument
      ([lower]) of the handler that calls it, of which the statements
      assume only what it does to ASCII text ([JS.toLowerCase]);
    - a request or event field is [option string], [None] for a field that
      is absent; the handlers only test such fields for truthiness;
    - a table is the list of its rows in insertion order; a query without
      [orderBy] scans it in that order;
    - the foreign keys of the schema are enforced on insert, the way the
      database enforces them; ids and timestamps that the schema leaves to
      defaults are inputs of the call that inserts ([Gen]);
    - the [limit] of a history request is what [Number(limit)] makes of
      it: an integer of either sign, or not an integer;
    - a room is the set of the socket ids in it ([gset]); an emit records
      the set of sockets it reaches. *)

From Stdlib Require Import ZArith Ascii String List Bool Lia.
From stdpp Require Import base list strings gmap sorting.
Import ListNotations.

Local Open Scope string_scope.
Local Open Scope Z_scope.
Local Open Scope nat_scope.
Local Open Scope list_scope.

(** ** JavaScript values as the handlers use them *)

Module JS.

(** A request or event field that holds text: [None] is [undefined]. *)
Definition truthy (v : option string) : bool :=
  match v with
  | Some s => negb (String.eqb s "")
  | None => false
  end.

(** [v || null] on an optional text field. *)
Definition or_null (v : option string) : option string :=
  if truthy v then v else None.

(** [!!v] on an optional boolean field. *)
Definition to_bool (v : option bool) : bool :=
  match v with
  | Some b => b
  | None => false
  end.

(** [Number(v)] as [take] sees it: an integer it can hold, or anything
    else (NaN, a fraction, an infinity). *)
Inductive number :=
| Int (z : Z)
| NotInt.

(** [Array.from(new Set(xs))]: a Set keeps the first occurrence of every
    value, in insertion order. *)
Fixpoint set_add (seen : list string) (x : string) : list string :=
  match seen with
  | [] => [x]
  | y :: seen' => if String.eqb y x then seen else y :: set_add seen' x
  end.

Definition array_from_set (xs : list string) : list string :=
  fold_left set_add xs [].

(** [xs.includes(x)] *)
Definition array_includes (xs : list string) (x : string) : bool :=
  existsb (String.eqb x) xs.


Definition lower_ascii (c : ascii) : ascii :=
  let n := nat_of_ascii c in
  if (65 <=? n) && (n <=? 90) then ascii_of_nat (n + 32) else c.

Fixpoint toLowerCase (s : string) : string :=
  match s with
  | EmptyString => EmptyString
  | String c s' => String (lower_ascii c) (toLowerCase s')
  end.

(** [s.includes(q)] *)
Fixpoint includes (s q : string) : bool :=
  String.prefix q s ||
  match s with
  | EmptyString => false
  | String _ s' => includes s' q
  end.

End JS.

(** ** The tables of the schema *)

(** A JSONB column.  [deliveredTo] and [readBy] default to the empty array
    and the handlers only ever store arrays of user ids; the other shapes
    are what [Array.isArray] guards against. *)
Inductive Json :=
| JNull
| JString (s : string)
| JArray (xs : list string).

Module User.
Record t := mk {
  id : string;
  email : string;
  passwordHash : string;
  displayName : string;
  avatarUrl : option string;
  lastSeenAt : Z;
  createdAt : Z
}.
End User.

Module Conversation.
Record t := mk {
  id : string;
  isGroup : bool;
  title : option string;
  createdAt : Z
}.
End Conversation.

Module Membership.
Record t := mk {
  id : string;
  userId : string;
  conversationId : string;
  role : string;
  joinedAt : Z;
  lastReadMsgId : option string
}.
End Membership.

Module Message.
Record t := mk {
  id : string;
  conversationId : string;
  authorId : string;
  kind : string;
  text : option string;
  fileUrl : option string;
  createdAt : Z;
  deliveredTo : Json;
  readBy : Json
}.

Definition with_deliveredTo (v : Json) (m : t) : t :=
  mk (id m) (conversationId m) (authorId m) (kind m) (text m) (fileUrl m)
     (createdAt m) v (readBy m).

Definition with_readBy (v : Json) (m : t) : t :=
  mk (id m) (conversationId m) (authorId m) (kind m) (text m) (fileUrl m)
     (createdAt m) (deliveredTo m) v.
End Message.

(** The database: one list of rows per table, in insertion order. *)
Record Store := mkStore {
  users : list User.t;
  conversations : list Conversation.t;
  memberships : list Membership.t;
  messages : list Message.t
}.

(** ** Socket.IO *)

Record Socket := mkSocket {
  sid : string;      (* socket.id *)
  s_uid : string     (* socket.user.uid, set by the handshake middleware *)
}.

Inductive Event :=
| Typing (cid userId : string) (isTyping : bool)
| MessageCreated (msg : Message.t)
| MessageUpdatedDelivered (msgId : string) (deliveredTo : list string)
| MessageUpdatedRead (msgId : string) (readBy : list string).

(** One [emit]: the sockets that receive it and the event. *)
Record Emit := mkEmit {
  recipients : gset string;
  event : Event
}.

(** ** Server state and the handler monad *)

Inductive Query :=
| UserFindMany
| ConversationFindFirst
| ConversationCreate
| MessageFindMany
| MessageCreate
| MessageFindUnique
| MessageUpdate.

Record Server := mkServer {
  db : Store;
  rooms : gmap string (gset string);   (* room name to the sockets in it *)
  queries : list Query;                 (* Prisma calls issued, oldest first *)
  outbox : list Emit                    (* events emitted, oldest first *)
}.

Inductive Exn :=
| TypeError            (* property access on null *)
| ForeignKeyFailed     (* a FOREIGN KEY constraint of the schema *)
| RecordNotFound       (* update of a row that does not exist *)
| ValidationFailed.    (* an argument the Prisma client does not accept *)

Inductive result (A : Type) :=
| Done (a : A)
| Threw (e : Exn).
Arguments Done {A} a.
Arguments Threw {A} e.

Definition M (A : Type) : Type := Server -> result A * Server.

Definition ret {A} (a : A) : M A := fun s => (Done a, s).

Definition throw {A} (e : Exn) : M A := fun s => (Threw e, s).

Definition bind {A B} (m : M A) (k : A -> M B) : M B :=
  fun s =>
    match m s with
    | (Done a, s') => k a s'
    | (Threw e, s') => (Threw e, s')
    end.

Definition try_catch {A} (m : M A) (handler : Exn -> M A) : M A :=
  fun s =>
    match m s with
    | (Done a, s') => (Done a, s')
    | (Threw e, s') => handler e s'
    end.

Notation "x <- c ;; k" := (bind c (fun x => k))
  (at level 100, c at next level, right associativity).
Notation "c ;;; k" := (bind c (fun _ => k))
  (at level 100, right associativity).

Definition get_db : M Store := fun s => (Done (db s), s).

Definition put_db (d : Store) : M unit :=
  fun s => (Done tt, mkServer d (rooms s) (queries s) (outbox s)).

Definition log_query (q : Query) : M unit :=
  fun s => (Done tt, mkServer (db s) (rooms s) (queries s ++ [q]) (outbox s)).

Definition room_of (r : gmap string (gset string)) (room : string) : gset string :=
  default ∅ (r !! room).

(** [socket.join(room)] and [socket.leave(room)] *)
Definition socket_join (sock : Socket) (room : string) : M unit :=
  fun s => (Done tt,
            mkServer (db s) (<[room := {[sid sock]} ∪ room_of (rooms s) room]> (rooms s))
                     (queries s) (outbox s)).

Definition socket_leave (sock : Socket) (room : string) : M unit :=
  fun s => (Done tt,
            mkServer (db s) (<[room := room_of (rooms s) room ∖ {[sid sock]}]> (rooms s))
                     (queries s) (outbox s)).

(** [io.to(room).emit(ev)]: every socket in the room. *)
Definition io_to_emit (room : string) (ev : Event) : M unit :=
  fun s => (Done tt,
            mkServer (db s) (rooms s) (queries s)
                     (outbox s ++ [mkEmit (room_of (rooms s) room) ev])).

(** [socket.to(room).emit(ev)]: every socket in the room but [socket]. *)
Definition socket_to_emit (sock : Socket) (room : string) (ev : Event) : M unit :=
  fun s => (Done tt,
            mkServer (db s) (rooms s) (queries s)
                     (outbox s ++ [mkEmit (room_of (rooms s) room ∖ {[sid sock]}) ev])).

Definition cid_room (cid : string) : string := "cid:" +:+ cid.

(** ** Prisma calls

    Each call is logged in [queries] before it runs.  Row ids and
    timestamps that the schema fills in by default ([id], [createdAt],
    [joinedAt]) come from [Gen]: [new_id g k] is the k-th identifier drawn
    while the call runs, [now g] the clock. *)

Record Gen := mkGen {
  new_id : nat -> string;
  now : Z
}.

Module prisma.

Definition user_exists (d : Store) (uid : string) : bool :=
  existsb (fun u => String.eqb (User.id u) uid) (users d).

Definition conversation_exists (d : Store) (cid : string) : bool :=
  existsb (fun c => String.eqb (Conversation.id c) cid) (conversations d).

Definition message_exists (d : Store) (msgId : string) : bool :=
  existsb (fun m => String.eqb (Message.id m) msgId) (messages d).

(** [include: { memberships: true }] *)
Definition memberships_of (d : Store) (cid : string) : list Membership.t :=
  List.filter (fun m => String.eqb (Membership.conversationId m) cid)
              (memberships d).

(** [memberships: { some: { userId } }] *)
Definition has_member (d : Store) (cid uid : string) : bool :=
  existsb (fun m => String.eqb (Membership.conversationId m) cid
                    && String.eqb (Membership.userId m) uid)
          (memberships d).

(** [prisma.user.findMany()] *)
Definition user_findMany : M (list User.t) :=
  log_query UserFindMany ;;;
  d <- get_db ;;
  ret (users d).

(** The [where] clause of the direct-chat lookup. *)
Definition direct_between (d : Store) (u1 u2 : string) (c : Conversation.t) : bool :=
  negb (Conversation.isGroup c)
  && has_member d (Conversation.id c) u1
  && has_member d (Conversation.id c) u2.

(** [prisma.conversation.findFirst({ where: { isGroup: false, AND: [...] },
    include: { memberships: true } })] *)
Definition direct_candidate (d : Store) (u1 u2 : string)
  : option (Conversation.t * list Membership.t) :=
  match List.find (direct_between d u1 u2) (conversations d) with
  | Some c => Some (c, memberships_of d (Conversation.id c))
  | None => None
  end.

Definition conversation_findFirst (u1 u2 : string)
  : M (option (Conversation.t * list Membership.t)) :=
  log_query ConversationFindFirst ;;;
  d <- get_db ;;
  ret (direct_candidate d u1 u2).

(** [prisma.conversation.create] with nested membership rows.  Each
    membership's [userId] is a foreign key into [User]; the nested write
    is one transaction, so a failure leaves the tables as they were. *)
Definition conversation_create (g : Gen) (isGroup : bool) (title : option string)
           (uids : list string) : M (Conversation.t * list Membership.t) :=
  log_query ConversationCreate ;;;
  d <- get_db ;;
  if forallb (user_exists d) uids then
    let c := Conversation.mk (new_id g 0) isGroup title (now g) in
    let ms := imap (fun i uid =>
                      Membership.mk (new_id g (S i)) uid (new_id g 0)
                                    "member" (now g) None) uids in
    let d' := mkStore (users d) (conversations d ++ [c])
                      (memberships d ++ ms) (messages d) in
    put_db d' ;;;
    ret (c, memberships_of d' (Conversation.id c))
  else throw ForeignKeyFailed.

(** [orderBy: { createdAt: "desc" }] *)
Definition created_desc (m1 m2 : Message.t) : Prop :=
  (Message.createdAt m2 <= Message.createdAt m1)%Z.

#[global] Instance created_desc_dec m1 m2 : Decision (created_desc m1 m2).
Proof. unfold created_desc. apply _. Defined.

(** The [where] clause of the history query; [lt] on a TEXT column
    compares the strings. *)
Definition history_where (cid : string) (before : option string) (m : Message.t) : bool :=
  String.eqb (Message.conversationId m) cid
  && match before with
     | Some b => String.ltb (Message.id m) b
     | None => true
     end.

(** [take: z] on the ordered rows: the first [z] of them for [z >= 0], the
    last [-z] of them, in the same order, for [z < 0]. *)
Definition take_rows (z : Z) (rows : list Message.t) : list Message.t :=
  if (0 <=? z)%Z then firstn (Z.to_nat z) rows
  else skipn (length rows - Z.to_nat (- z)) rows.

(** [prisma.message.findMany({ where, orderBy: { createdAt: "desc" }, take })];
    a [take] that is not an integer is refused by the client. *)
Definition message_findMany (cid : string) (before : option string) (n : JS.number)
  : M (list Message.t) :=
  log_query MessageFindMany ;;;
  match n with
  | JS.NotInt => throw ValidationFailed
  | JS.Int z =>
      d <- get_db ;;
      ret (take_rows z (merge_sort created_desc
                                   (List.filter (history_where cid before)
                                                (messages d))))
  end.

(** [prisma.message.create]: [conversationId] and [authorId] are foreign
    keys; [deliveredTo] and [readBy] take the column default []. *)
Definition message_create (g : Gen) (cid authorId kind : string)
           (text fileUrl : option string) : M Message.t :=
  log_query MessageCreate ;;;
  d <- get_db ;;
  if conversation_exists d cid && user_exists d authorId then
    let m := Message.mk (new_id g 0) cid authorId kind text fileUrl (now g)
                        (JArray []) (JArray []) in
    put_db (mkStore (users d) (conversations d) (memberships d) (messages d ++ [m])) ;;;
    ret m
  else throw ForeignKeyFailed.

Definition find_message (d : Store) (msgId : string) : option Message.t :=
  List.find (fun m => String.eqb (Message.id m) msgId) (messages d).

(** [prisma.message.findUnique({ where: { id } })] *)
Definition message_findUnique (msgId : string) : M (option Message.t) :=
  log_query MessageFindUnique ;;;
  d <- get_db ;;
  ret (find_message d msgId).

Definition update_rows (msgId : string) (data : Message.t -> Message.t)
           (rows : list Message.t) : list Message.t :=
  map (fun m => if String.eqb (Message.id m) msgId then data m else m) rows.

(** [prisma.message.update({ where: { id }, data })], [data] given as the
    change it makes to the row. *)
Definition message_update (msgId : string) (data : Message.t -> Message.t) : M unit :=
  log_query MessageUpdate ;;;
  d <- get_db ;;
  if message_exists d msgId then
    put_db (mkStore (users d) (conversations d) (memberships d)
                    (update_rows msgId data (messages d)))
  else throw RecordNotFound.

End prisma.

(** ** REST handlers *)

Record UserView := mkUserView {
  uv_id : string;
  uv_email : string;
  uv_displayName : string
}.

Inductive Body :=
| BError (error : string)
| BUsers (us : list UserView)
| BConversation (c : Conversation.t) (ms : list Membership.t)
| BMessages (ms : list Message.t).

Record Response := mkResponse {
  status : nat;
  body : Body
}.

(** [res.json(b)] and [res.status(n).json(b)] *)
Definition json (b : Body) : Response := mkResponse 200 b.
Definition status_json (n : nat) (b : Body) : Response := mkResponse n b.

(** [authMiddleware]: [req_user] is what [jwt.verify] yields, [None] when
    it throws. *)
Definition authMiddleware (req_user : option string) (next : string -> M Response)
  : M Response :=
  match req_user with
  | Some uid => next uid
  | None => ret (status_json 401 (BError "unauthorized"))
  end.

(** [u => ({ id: u.id, email: u.email, displayName: u.displayName })] *)
Definition user_view (u : User.t) : UserView :=
  mkUserView (User.id u) (User.email u) (User.displayName u).

(** [GET /users/search]; [lower] is [String.prototype.toLowerCase]. *)
Definition users_search (lower : string -> string)
           (req_user : option string) (query_q : option string)
  : M Response :=
  authMiddleware req_user (fun _ =>
    let q := lower (default "" (JS.or_null query_q)) in
    if negb (JS.truthy (Some q)) then ret (json (BUsers []))
    else
      users <- prisma.user_findMany ;;
      let filtered :=
        map user_view
            (List.filter
               (fun u => JS.includes (lower (User.email u)) q
                         || JS.includes (lower (User.displayName u)) q)
               users) in
      ret (json (BUsers filtered))).

(** [POST /conversations] *)
Definition post_conversations (g : Gen) (req_user : option string)
           (memberIds : list string) (isGroup : bool) (title : option string)
  : M Response :=
  authMiddleware req_user (fun uid =>
    try_catch
      (let uniqueMemberIds := JS.array_from_set (uid :: memberIds) in
       let create :=
         convo <- prisma.conversation_create g isGroup title uniqueMemberIds ;;
         ret (json (BConversation (fst convo) (snd convo))) in
       if negb isGroup then
         match uniqueMemberIds with
         | [u1; u2] =>
             existing <- prisma.conversation_findFirst u1 u2 ;;
             match existing with
             | Some (c, ms) =>
                 if length ms =? 2 then ret (json (BConversation c ms))
                 else create
             | None => create
             end
         | _ => ret (status_json 400
                       (BError "direct chat must have exactly 2 members"))
         end
       else create)
      (fun _ => ret (status_json 500 (BError "server_error")))).

(** [GET /messages]; [limit] is what [Number(limit)] evaluates to when the
    query carries a limit.  The handler has no [try]: a refused query is
    an uncaught rejection. *)
Definition get_messages (req_user : option string) (cid before : option string)
           (limit : option JS.number) : M Response :=
  authMiddleware req_user (fun _ =>
    match JS.or_null cid with
    | None => ret (status_json 400 (BError "cid required"))
    | Some cid =>
        messages <- prisma.message_findMany cid (JS.or_null before)
                                            (default (JS.Int 50) limit) ;;
        ret (json (BMessages (reverse messages)))
    end).

(** ** Socket.IO event handlers

    A handler that ends in [Threw] is an async listener whose promise
    rejects with nothing to catch it. *)

(** [Array.isArray(v) ? v : []] *)
Definition as_array (v : Json) : list string :=
  match v with
  | JArray xs => xs
  | _ => []
  end.

(** [if (!xs.includes(uid)) xs.push(uid)] *)
Definition push_absent (xs : list string) (uid : string) : list string :=
  if JS.array_includes xs uid then xs else xs ++ [uid].

Definition on_join_conversation (sock : Socket) (cid : option string) : M unit :=
  match JS.or_null cid with
  | None => ret tt
  | Some cid => socket_join sock (cid_room cid)
  end.

Definition on_leave_conversation (sock : Socket) (cid : option string) : M unit :=
  match JS.or_null cid with
  | None => ret tt
  | Some cid => socket_leave sock (cid_room cid)
  end.

Definition on_typing (sock : Socket) (cid : option string) (isTyping : option bool)
  : M unit :=
  match JS.or_null cid with
  | None => ret tt
  | Some cid =>
      socket_to_emit sock (cid_room cid)
                     (Typing cid (s_uid sock) (JS.to_bool isTyping))
  end.

Definition on_send_message (g : Gen) (sock : Socket)
           (cid kind text fileUrl : option string) : M unit :=
  match JS.or_null cid, JS.or_null kind with
  | Some cid, Some kind =>
      msg <- prisma.message_create g cid (s_uid sock) kind
                                   (JS.or_null text) (JS.or_null fileUrl) ;;
      io_to_emit (cid_room cid) (MessageCreated msg)
  | _, _ => ret tt
  end.

Definition on_ack_delivered (sock : Socket) (cid msgId : option string) : M unit :=
  match JS.or_null cid, JS.or_null msgId with
  | Some cid, Some msgId =>
      msg <- prisma.message_findUnique msgId ;;
      match msg with
      | None => throw TypeError
      | Some msg =>
          let deliveredTo := push_absent (as_array (Message.deliveredTo msg))
                                         (s_uid sock) in
          prisma.message_update msgId (Message.with_deliveredTo (JArray deliveredTo)) ;;;
          io_to_emit (cid_room cid) (MessageUpdatedDelivered msgId deliveredTo)
      end
  | _, _ => ret tt
  end.

Definition on_ack_read (sock : Socket) (cid msgId : option string) : M unit :=
  match JS.or_null cid, JS.or_null msgId with
  | Some cid, Some msgId =>
      msg <- prisma.message_findUnique msgId ;;
      match msg with
      | None => throw TypeError
      | Some msg =>
          let readBy := push_absent (as_array (Message.readBy msg)) (s_uid sock) in
          prisma.message_update msgId (Message.with_readBy (JArray readBy)) ;;;
          io_to_emit (cid_room cid) (MessageUpdatedRead msgId readBy)
      end
  | _, _ => ret tt
  end.

(** The state an acknowledgment leaves behind when the message exists. *)
Definition after_ack (s : Server) (msgId : string)
           (data : Message.t -> Message.t) (e : Emit) : Server :=
  mkServer (mkStore (users (db s)) (conversations (db s)) (memberships (db s))
                    (prisma.update_rows msgId data (messages (db s))))
           (rooms s)
           (queries s ++ [MessageFindUnique; MessageUpdate])
           (outbox s ++ [e]).

Definition delivered_after (m : Message.t) (uid : string) : list string :=
  push_absent (as_array (Message.deliveredTo m)) uid.

Definition read_after (m : Message.t) (uid : string) : list string :=
  push_absent (as_array (Message.readBy m)) uid.

(** ** Statements shared by the two acknowledgment handlers

    [handler] is [on_ack_delivered] or [on_ack_read] and [field] the column
    it maintains. *)

Definition AckHandler : Type := Socket -> option string -> option string -> M unit.

(** The acknowledged set grows by at most the acknowledging user, and a
    second acknowledgment by that user changes nothing in the database. *)
Definition ack_grows_idempotent (handler : AckHandler) (field : Message.t -> Json)
           (s : Server) (sock : Socket) (cid msgId : string) (m : Message.t) : Prop :=
  exists s1 m1 s2,
    handler sock (Some cid) (Some msgId) s = (Done tt, s1)
    /\ prisma.find_message (db s1) msgId = Some m1
    /\ (forall u, In u (as_array (field m)) -> In u (as_array (field m1)))
    /\ In (s_uid sock) (as_array (field m1))
    /\ (forall u, In u (as_array (field m1)) ->
                  In u (as_array (field m)) \/ u = s_uid sock)
    /\ handler sock (Some cid) (Some msgId) s1 = (Done tt, s2)
    /\ db s2 = db s1.

(** The handler throws [TypeError] and leaves database, rooms and outbox
    as they were. *)
Definition ack_throws (handler : AckHandler)
           (s : Server) (sock : Socket) (cid msgId : string) : Prop :=
  exists s',
    handler sock (Some cid) (Some msgId) s = (Threw TypeError, s')
    /\ db s' = db s /\ rooms s' = rooms s /\ outbox s' = outbox s.

(** Every column of a message row but the acknowledged one. *)
Definition same_but_deliveredTo (old new : Message.t) : Prop :=
  Message.id new = Message.id old
  /\ Message.conversationId new = Message.conversationId old
  /\ Message.authorId new = Message.authorId old
  /\ Message.kind new = Message.kind old
  /\ Message.text new = Message.text old
  /\ Message.fileUrl new = Message.fileUrl old
  /\ Message.createdAt new = Message.createdAt old
  /\ Message.readBy new = Message.readBy old.

Definition same_but_readBy (old new : Message.t) : Prop :=
  Message.id new = Message.id old
  /\ Message.conversationId new = Message.conversationId old
  /\ Message.authorId new = Message.authorId old
  /\ Message.kind new = Message.kind old
  /\ Message.text new = Message.text old
  /\ Message.fileUrl new = Message.fileUrl old
  /\ Message.createdAt new = Message.createdAt old
  /\ Message.deliveredTo new = Message.deliveredTo old.

(** The handler succeeds, touches no table but [Message], and in it keeps
    the rows in place: the row of [msgId] changes in one column only,
    every other row is the same. *)
Definition ack_frame (handler : AckHandler)
           (same_but : Message.t -> Message.t -> Prop)
           (s : Server) (sock : Socket) (cid msgId : string) : Prop :=
  exists s1,
    handler sock (Some cid) (Some msgId) s = (Done tt, s1)
    /\ users (db s1) = users (db s)
    /\ conversations (db s1) = conversations (db s)
    /\ memberships (db s1) = memberships (db s)
    /\ rooms s1 = rooms s
    /\ Forall2 (fun old new => same_but old new
                               /\ (Message.id old <> msgId -> new = old))
               (messages (db s)) (messages (db s1)).

(** ** The scenario of the testable properties: Alice and Bob share the
    direct conversation C, both have a socket in its room, Carol has an
    account and a socket outside the room. *)

Module Scenario.

Definition alice : User.t := User.mk "A" "a@x.com" "$2a$10$a" "Alice" None 100 100.
Definition bob : User.t := User.mk "B" "b@x.com" "$2a$10$b" "Bob" None 101 101.
Definition carol : User.t := User.mk "K" "carol@y.org" "$2a$10$c" "Carol" None 102 102.

Definition convC : Conversation.t := Conversation.mk "C" false None 110.
Definition memA : Membership.t := Membership.mk "MA" "A" "C" "member" 110 None.
Definition memB : Membership.t := Membership.mk "MB" "B" "C" "member" 110 None.

Definition hi : Message.t :=
  Message.mk "m1" "C" "A" "text" (Some "hi") None 120 (JArray []) (JArray []).
Definition pic : Message.t :=
  Message.mk "m2" "C" "B" "file" None (Some "/uploads/f1") 130
             (JArray ["A"]) (JArray []).

Definition store : Store :=
  mkStore [alice; bob; carol] [convC] [memA; memB] [hi; pic].

Definition sockA : Socket := mkSocket "sA" "A".
Definition sockB : Socket := mkSocket "sB" "B".
Definition sockK : Socket := mkSocket "sK" "K".

Definition server : Server :=
  mkServer store {[ "cid:C" := {[ "sA"; "sB" ]} ]} [] [].

Definition gen : Gen :=
  mkGen (fun k => match k with
                  | 0 => "n0"
                  | 1 => "n1"
                  | _ => "n2"
                  end) 200.

End Scenario.

(** ** Statements about the room handlers *)

(** The event leaves the server as it was: nothing stored, nothing queried,
    nothing emitted. *)
Definition dropped (handler : M unit) (s : Server) : Prop :=
  handler s = (Done tt, s).

(** [on_typing] emits one [Typing] event that carries the conversation id,
    the sender's user id and [flag], to the sockets of the room
    "cid:<cid>" other than the sender's, and stores nothing. *)
Definition typing_broadcast (s : Server) (sock : Socket) (cid : string)
           (isTyping : option bool) (flag : bool) : Prop :=
  exists s' e,
    on_typing sock (Some cid) isTyping s = (Done tt, s')
    /\ db s' = db s /\ rooms s' = rooms s
    /\ outbox s' = outbox s ++ [e]
    /\ event e = Typing cid (s_uid sock) flag
    /\ (forall x, x ∈ recipients e <->
                  x ∈ default ∅ (rooms s !! ("cid:" +:+ cid)) /\ x <> sid sock).

(** The row [on_send_message] inserts. *)
Definition sent_message (g : Gen) (sock : Socket) (cid kind : string)
           (text fileUrl : option string) : Message.t :=
  Message.mk (new_id g 0) cid (s_uid sock) kind (JS.or_null text)
             (JS.or_null fileUrl) (now g) (JArray []) (JArray []).

(** [on_send_message] appends one row to [Message], authored by the sender
    in the conversation, with empty [deliveredTo] and [readBy], leaves the
    other tables alone, and emits the stored row to every socket in the
    room, the sender's socket included when it is in the room. *)
Definition send_persists_and_broadcasts (g : Gen) (s : Server) (sock : Socket)
           (cid kind : string) (text fileUrl : option string) : Prop :=
  exists s' msg e,
    on_send_message g sock (Some cid) (Some kind) text fileUrl s = (Done tt, s')
    /\ messages (db s') = messages (db s) ++ [msg]
    /\ users (db s') = users (db s)
    /\ conversations (db s') = conversations (db s)
    /\ memberships (db s') = memberships (db s)
    /\ Message.conversationId msg = cid
    /\ Message.authorId msg = s_uid sock
    /\ Message.kind msg = kind
    /\ Message.deliveredTo msg = JArray []
    /\ Message.readBy msg = JArray []
    /\ outbox s' = outbox s ++ [e]
    /\ event e = MessageCreated msg
    /\ recipients e = room_of (rooms s) (cid_room cid)
    /\ (sid sock ∈ room_of (rooms s) (cid_room cid) -> sid sock ∈ recipients e).

(** The insert is refused by a foreign key: the handler throws, no row is
    stored and nothing is emitted. *)
Definition send_rejected (g : Gen) (s : Server) (sock : Socket)
           (cid kind : string) (text fileUrl : option string) : Prop :=
  exists s',
    on_send_message g sock (Some cid) (Some kind) text fileUrl s
    = (Threw ForeignKeyFailed, s')
    /\ db s' = db s /\ rooms s' = rooms s /\ outbox s' = outbox s.

(** The same server with another membership table. *)
Definition with_memberships (ms : list Membership.t) (s : Server) : Server :=
  mkServer (mkStore (users (db s)) (conversations (db s)) ms (messages (db s)))
           (rooms s) (queries s) (outbox s).

(** ** Statements about user search *)











(** ** Statements about conversations *)

(** The member set of a request, as a set: {requester} ∪ memberIds. *)
Definition member_set (uid : string) (memberIds : list string) : gset string :=
  {[uid]} ∪ list_to_set memberIds.

Definition bad_cardinality : Response :=
  status_json 400 (BError "direct chat must have exactly 2 members").

(** The same server after the queries [qs]. *)
Definition logged (s : Server) (qs : list Query) : Server :=
  mkServer (db s) (rooms s) (queries s ++ qs) (outbox s).

(** The rows a direct chat between [u1] and [u2] is created with. *)
Definition new_conversation (g : Gen) (title : option string) : Conversation.t :=
  Conversation.mk (new_id g 0) false title (now g).

Definition new_memberships (g : Gen) (u1 u2 : string) : list Membership.t :=
  [Membership.mk (new_id g 1) u1 (new_id g 0) "member" (now g) None;
   Membership.mk (new_id g 2) u2 (new_id g 0) "member" (now g) None].

Definition store_with_direct (g : Gen) (title : option string) (u1 u2 : string)
           (d : Store) : Store :=
  mkStore (users d) (conversations d ++ [new_conversation g title])
          (memberships d ++ new_memberships g u1 u2) (messages d).

(** The foreign keys of [Membership], as the database keeps them. *)
Definition membership_keys_ok (d : Store) : bool :=
  forallb (fun m => prisma.user_exists d (Membership.userId m)
                    && prisma.conversation_exists d (Membership.conversationId m))
          (memberships d).

(** The request answered with the stored conversation [c] and its
    memberships [ms], and no row written. *)
Definition reused (s : Server) (c : Conversation.t) (ms : list Membership.t)
           (r : result Response * Server) : Prop :=
  fst r = Done (json (BConversation c ms))
  /\ db (snd r) = db s.

(** The request answered with a new conversation between [u1] and [u2]:
    one conversation row and two membership rows were added. *)
Definition created (g : Gen) (title : option string) (u1 u2 : string) (s : Server)
           (r : result Response * Server) : Prop :=
  fst r = Done (json (BConversation (new_conversation g title)
                                    (new_memberships g u1 u2)))
  /\ db (snd r) = store_with_direct g title u1 u2 (db s).

(** What [POST /conversations] does for a direct chat between [a] and [b]
    once the lookup gave nothing to reuse: the nested create, or 500 when a
    member has no user row. *)
Definition create_outcome (g : Gen) (title : option string) (a b : string)
           (s : Server) : result Response * Server :=
  if prisma.user_exists (db s) a && prisma.user_exists (db s) b
  then (Done (json (BConversation
                      (new_conversation g title)
                      (prisma.memberships_of (store_with_direct g title a b (db s))
                                             (new_id g 0)))),
        mkServer (store_with_direct g title a b (db s)) (rooms s)
                 (queries s ++ [ConversationFindFirst; ConversationCreate])
                 (outbox s))
  else (Done (status_json 500 (BError "server_error")),
        logged s [ConversationFindFirst; ConversationCreate]).

(** ** Statements about history *)




(** * The rest of the server: accounts, conversation lists, presence, push

    These routes use tables and calls the conversation and message routes
    do not.  The application state [App] adds them around [Server]: the
    [Subscription] table, the presence events emitted to every socket, and
    a log of the Prisma calls these routes issue.  Their handlers run in
    [H], the handler monad over [App]. *)

Module Subscription.
Record t := mk {
  id : string;
  userId : string;
  json : string        (* the JSON text of the request body *)
}.
End Subscription.

(** A signed token, given by the payload [jwt.sign] signed:
    [{ uid, email }]. *)
Record Token := mkToken {
  tok_uid : string;
  tok_email : string
}.

(** [bcryptjs]: [bcrypt_hash salt password] is the hash [bcrypt.hash]
    yields when it draws [salt]; [bcrypt_compare password hash] is
    [bcrypt.compare]. *)
Record Bcrypt := mkBcrypt {
  bcrypt_hash : string -> string -> string;
  bcrypt_compare : string -> string -> bool
}.

(** [io.emit("presence", ...)]: one event, sent to every connected socket. *)
Record Presence := mkPresence {
  pr_userId : string;
  pr_state : string;
  pr_lastSeenAt : Z
}.

Inductive Call :=
| UserFindUnique
| UserCreate
| UserUpdate
| MembershipFindMany
| SubscriptionUpsert.

Record App := mkApp {
  core : Server;
  subscriptions : list Subscription.t;
  calls : list Call;                 (* Prisma calls of these routes, oldest first *)
  presences : list Presence          (* presence events emitted, oldest first *)
}.

Inductive Fault :=
| CoreFault (e : Exn)
| UniqueConstraintFailed.          (* a UNIQUE INDEX of the schema *)

Inductive outcome (A : Type) :=
| Fine (a : A)
| Failed (f : Fault).
Arguments Fine {A} a.
Arguments Failed {A} f.

Definition H (A : Type) : Type := App -> outcome A * App.

Definition hret {A} (x : A) : H A := fun a => (Fine x, a).

Definition hthrow {A} (f : Fault) : H A := fun a => (Failed f, a).

Definition hbind {A B} (m : H A) (k : A -> H B) : H B :=
  fun a =>
    match m a with
    | (Fine x, a') => k x a'
    | (Failed f, a') => (Failed f, a')
    end.

Definition htry {A} (m : H A) (handler : Fault -> H A) : H A :=
  fun a =>
    match m a with
    | (Fine x, a') => (Fine x, a')
    | (Failed f, a') => handler f a'
    end.

Notation "x <~ c ;; k" := (hbind c (fun x => k))
  (at level 100, c at next level, right associativity).
Notation "c ;;~ k" := (hbind c (fun _ => k))
  (at level 100, right associativity).

Definition with_core (s : Server) (a : App) : App :=
  mkApp s (subscriptions a) (calls a) (presences a).

Definition with_store (d : Store) (a : App) : App :=
  with_core (mkServer d (rooms (core a)) (queries (core a)) (outbox (core a))) a.

Definition get_store : H Store := fun a => (Fine (db (core a)), a).

Definition put_store (d : Store) : H unit := fun a => (Fine tt, with_store d a).

Definition log_call (c : Call) : H unit :=
  fun a => (Fine tt, mkApp (core a) (subscriptions a) (calls a ++ [c]) (presences a)).

(** A handler of the core, run on the application state. *)
Definition lift_core {A} (m : M A) : H A :=
  fun a =>
    match m (core a) with
    | (Done x, s') => (Fine x, with_core s' a)
    | (Threw e, s') => (Failed (CoreFault e), with_core s' a)
    end.

Definition io_emit_presence (p : Presence) : H unit :=
  fun a => (Fine tt,
            mkApp (core a) (subscriptions a) (calls a) (presences a ++ [p])).

Module prisma_app.

Definition find_user_by_email (d : Store) (email : string) : option User.t :=
  List.find (fun u => String.eqb (User.email u) email) (users d).

Definition find_user (d : Store) (uid : string) : option User.t :=
  List.find (fun u => String.eqb (User.id u) uid) (users d).

Definition find_conversation (d : Store) (cid : string) : option Conversation.t :=
  List.find (fun c => String.eqb (Conversation.id c) cid) (conversations d).

(** [prisma.user.findUnique({ where: { email } })] *)
Definition user_findUnique_email (email : string) : H (option User.t) :=
  log_call UserFindUnique ;;~
  d <~ get_store ;;
  hret (find_user_by_email d email).

(** [prisma.user.findUnique({ where: { id } })] *)
Definition user_findUnique_id (uid : string) : H (option User.t) :=
  log_call UserFindUnique ;;~
  d <~ get_store ;;
  hret (find_user d uid).

(** [prisma.user.create({ data: { email, passwordHash, displayName } })]:
    [email] has a unique index; [avatarUrl] is null, [lastSeenAt] and
    [createdAt] take the clock. *)
Definition user_create (g : Gen) (email passwordHash displayName : string)
  : H User.t :=
  log_call UserCreate ;;~
  d <~ get_store ;;
  if existsb (fun u => String.eqb (User.email u) email) (users d)
  then hthrow UniqueConstraintFailed
  else
    let u := User.mk (new_id g 0) email passwordHash displayName None
                     (now g) (now g) in
    put_store (mkStore (users d ++ [u]) (conversations d) (memberships d)
                       (messages d)) ;;~
    hret u.

Definition set_lastSeenAt (t : Z) (u : User.t) : User.t :=
  User.mk (User.id u) (User.email u) (User.passwordHash u) (User.displayName u)
          (User.avatarUrl u) t (User.createdAt u).

(** [prisma.user.update({ where: { id }, data: { lastSeenAt } })] *)
Definition user_update_lastSeenAt (uid : string) (t : Z) : H unit :=
  log_call UserUpdate ;;~
  d <~ get_store ;;
  if prisma.user_exists d uid then
    put_store (mkStore (map (fun u => if String.eqb (User.id u) uid
                                      then set_lastSeenAt t u else u)
                            (users d))
                       (conversations d) (memberships d) (messages d))
  else hthrow (CoreFault RecordNotFound).

(** [prisma.membership.findMany({ where: { userId },
    include: { conversation: true } })]: each membership with the
    conversation its [conversationId] names; [None] is a conversation that
    is not there, which the foreign key rules out. *)
Definition membership_findMany (uid : string)
  : H (list (Membership.t * option Conversation.t)) :=
  log_call MembershipFindMany ;;~
  d <~ get_store ;;
  hret (map (fun m => (m, find_conversation d (Membership.conversationId m)))
            (List.filter (fun m => String.eqb (Membership.userId m) uid)
                         (memberships d))).

Definition has_subscription (subs : list Subscription.t) (uid : string) : bool :=
  existsb (fun r => String.eqb (Subscription.userId r) uid) subs.

(** [prisma.subscription.upsert({ where: { userId }, update: { json },
    create: { userId, json } })]: [userId] has a unique index and is a
    foreign key into [User]. *)
Definition subscription_upsert (g : Gen) (uid : string) (json : string) : H unit :=
  log_call SubscriptionUpsert ;;~
  fun a =>
    if has_subscription (subscriptions a) uid then
      (Fine tt,
       mkApp (core a)
             (map (fun r => if String.eqb (Subscription.userId r) uid
                            then Subscription.mk (Subscription.id r) uid json
                            else r)
                  (subscriptions a))
             (calls a) (presences a))
    else if prisma.user_exists (db (core a)) uid then
      (Fine tt,
       mkApp (core a)
             (subscriptions a ++ [Subscription.mk (new_id g 0) uid json])
             (calls a) (presences a))
    else (Failed (CoreFault ForeignKeyFailed), a).

End prisma_app.

(** ** REST handlers of the application *)

(** A JSON reply: the status and either an [{ error }] body or a payload. *)
Record Reply (A : Type) := mkReply {
  reply_status : nat;
  reply_body : string + A
}.
Arguments mkReply {A} _ _.
Arguments reply_status {A} _.
Arguments reply_body {A} _.

Definition reply_json {A} (x : A) : Reply A := mkReply 200 (inr x).
Definition reply_error {A} (n : nat) (error : string) : Reply A :=
  mkReply n (inl error).

(** [{ token, user: { id, email, displayName } }] *)
Record Session := mkSession {
  session_token : Token;
  session_user : UserView
}.

(** [{ id, email, displayName, lastSeenAt }] *)
Record Profile := mkProfile {
  profile_id : string;
  profile_email : string;
  profile_displayName : string;
  profile_lastSeenAt : Z
}.

(** [authMiddleware] in front of a handler of the application. *)
Definition authMiddlewareH {A} (req_user : option string)
           (next : string -> H (Reply A)) : H (Reply A) :=
  match req_user with
  | Some uid => next uid
  | None => hret (reply_error 401 "unauthorized")
  end.

(** [POST /auth/register], for a body whose fields are text or absent;
    [salt] is what [bcrypt.hash] draws. *)
Definition auth_register (B : Bcrypt) (g : Gen) (salt : string)
           (email password displayName : option string) : H (Reply Session) :=
  htry
    (match JS.or_null email, JS.or_null password, JS.or_null displayName with
     | Some email, Some password, Some displayName =>
         existing <~ prisma_app.user_findUnique_email email ;;
         match existing with
         | Some _ => hret (reply_error 409 "email already registered")
         | None =>
             let passwordHash := bcrypt_hash B salt password in
             user <~ prisma_app.user_create g email passwordHash displayName ;;
             hret (reply_json
                     (mkSession (mkToken (User.id user) (User.email user))
                                (mkUserView (User.id user) email
                                            (User.displayName user))))
         end
     | _, _, _ =>
         hret (reply_error 400 "email, password, displayName required")
     end)
    (fun _ => hret (reply_error 500 "server_error")).

(** [POST /auth/login], for a body that carries both fields as text. *)
Definition auth_login (B : Bcrypt) (email password : string) : H (Reply Session) :=
  htry
    (user <~ prisma_app.user_findUnique_email email ;;
     match user with
     | None => hret (reply_error 401 "invalid_credentials")
     | Some user =>
         if bcrypt_compare B password (User.passwordHash user)
         then hret (reply_json
                      (mkSession (mkToken (User.id user) (User.email user))
                                 (mkUserView (User.id user) email
                                             (User.displayName user))))
         else hret (reply_error 401 "invalid_credentials")
     end)
    (fun _ => hret (reply_error 500 "server_error")).

(** [GET /me]: no [try], and [me] is read without a null check. *)
Definition get_me (req_user : option string) : H (Reply Profile) :=
  authMiddlewareH req_user (fun uid =>
    me <~ prisma_app.user_findUnique_id uid ;;
    match me with
    | None => hthrow (CoreFault TypeError)
    | Some me =>
        hret (reply_json (mkProfile (User.id me) (User.email me)
                                    (User.displayName me) (User.lastSeenAt me)))
    end).

(** [GET /conversations] *)
Definition get_conversations (req_user : option string)
  : H (Reply (list (option Conversation.t))) :=
  authMiddlewareH req_user (fun uid =>
    convos <~ prisma_app.membership_findMany uid ;;
    hret (reply_json (map snd convos))).

(** [POST /push/subscribe]; [res.sendStatus(201)] *)
Definition push_subscribe (g : Gen) (req_user : option string) (body : string)
  : H (Reply unit) :=
  authMiddlewareH req_user (fun uid =>
    prisma_app.subscription_upsert g uid body ;;~
    hret (mkReply 201 (inr tt))).

(** ** Connection and disconnection *)

Definition user_room (uid : string) : string := "user:" +:+ uid.

(** [io.on("connection", ...)], up to the registration of the listeners:
    [t] is the clock. *)
Definition on_connection (t : Z) (sock : Socket) : H unit :=
  lift_core (socket_join sock (user_room (s_uid sock))) ;;~
  io_emit_presence (mkPresence (s_uid sock) "online" t).

(** [socket.on("disconnect", ...)]: [t1] and [t2] are the two readings of
    the clock. *)
Definition on_disconnect (t1 t2 : Z) (sock : Socket) : H unit :=
  prisma_app.user_update_lastSeenAt (s_uid sock) t1 ;;~
  io_emit_presence (mkPresence (s_uid sock) "offline" t2).

(** * The web client (web/src/App.jsx): the state updates of [ChatApp] *)

Module Client.

(** What the client emits to the server in reaction to an event. *)
Inductive Emitted :=
| AckDelivered (cid msgId : string)
| AckRead (cid msgId : string).

(** [a === b] where [a] is a string and [b] may be null or undefined. *)
Definition same (a : string) (b : option string) : bool :=
  match b with
  | Some b => String.eqb a b
  | None => false
  end.

(** The [message_created] listener: [cid] is the open conversation, [me]
    is [meUser?.id].  The message is appended when it belongs to the open
    conversation; a message of someone else is acknowledged as delivered
    and, after the timer, as read. *)
Definition on_message_created (cid me : option string) (m : Message.t)
           (msgs : list Message.t) : list Message.t * list Emitted :=
  if same (Message.conversationId m) cid then
    (msgs ++ [m],
     if negb (same (Message.authorId m) me)
     then [AckDelivered (Message.conversationId m) (Message.id m);
           AckRead (Message.conversationId m) (Message.id m)]
     else [])
  else (msgs, []).

(** The payload of [message_updated]: [{ msgId, deliveredTo }] or
    [{ msgId, readBy }]. *)
Record Update := mkUpdate {
  u_msgId : string;
  u_deliveredTo : option (list string);
  u_readBy : option (list string)
}.

Definition update_of_event (e : Event) : option Update :=
  match e with
  | MessageUpdatedDelivered msgId deliveredTo =>
      Some (mkUpdate msgId (Some deliveredTo) None)
  | MessageUpdatedRead msgId readBy =>
      Some (mkUpdate msgId None (Some readBy))
  | _ => None
  end.

(** [{ ...m, deliveredTo: u.deliveredTo ?? m.deliveredTo,
      readBy: u.readBy ?? m.readBy }] *)
Definition apply_update (u : Update) (m : Message.t) : Message.t :=
  Message.mk (Message.id m) (Message.conversationId m) (Message.authorId m)
             (Message.kind m) (Message.text m) (Message.fileUrl m)
             (Message.createdAt m)
             (match u_deliveredTo u with
              | Some d => JArray d
              | None => Message.deliveredTo m
              end)
             (match u_readBy u with
              | Some r => JArray r
              | None => Message.readBy m
              end).

(** The [message_updated] listener. *)
Definition on_message_updated (u : Update) (msgs : list Message.t)
  : list Message.t :=
  map (fun m => if String.eqb (Message.id m) (u_msgId u)
                then apply_update u m else m)
      msgs.




(** [setConvos(prev => [c, ...prev.filter(x => x.id !== c.id)])] *)
Definition put_first (c : Conversation.t) (prev : list Conversation.t)
  : list Conversation.t :=
  c :: List.filter (fun x => negb (String.eqb (Conversation.id x)
                                              (Conversation.id c))) prev.

End Client.

(** The server receives what a client emitted on [sock]. *)
Definition receive (sock : Socket) (e : Client.Emitted) : M unit :=
  match e with
  | Client.AckDelivered cid msgId => on_ack_delivered sock (Some cid) (Some msgId)
  | Client.AckRead cid msgId => on_ack_read sock (Some cid) (Some msgId)
  end.

(** The same for a list of events, handled one after the other. *)
Fixpoint receive_all (sock : Socket) (es : list Client.Emitted) : M unit :=
  match es with
  | [] => ret tt
  | e :: es' => receive sock e ;;; receive_all sock es'
  end.

(** * Statements about the rest of the code *)

(** ** Conversations *)

(** The rows [POST /conversations] inserts for the members [uids]. *)
Definition created_conversation (g : Gen) (isGroup : bool) (title : option string)
  : Conversation.t :=
  Conversation.mk (new_id g 0) isGroup title (now g).

Definition created_memberships (g : Gen) (uids : list string) : list Membership.t :=
  imap (fun i uid => Membership.mk (new_id g (S i)) uid (new_id g 0)
                                   "member" (now g) None) uids.

Definition store_with_conversation (c : Conversation.t) (ms : list Membership.t)
           (d : Store) : Store :=
  mkStore (users d) (conversations d ++ [c]) (memberships d ++ ms) (messages d).

(** Every non-group conversation has exactly two memberships. *)
Definition direct_ok (d : Store) : Prop :=
  forall c, In c (conversations d) -> Conversation.isGroup c = false ->
            length (prisma.memberships_of d (Conversation.id c)) = 2.

(** Two users share at most one non-group conversation. *)
Definition one_direct_per_pair (d : Store) : Prop :=
  forall u1 u2 c1 c2,
    u1 <> u2 ->
    In c1 (conversations d) -> In c2 (conversations d) ->
    prisma.direct_between d u1 u2 c1 = true ->
    prisma.direct_between d u1 u2 c2 = true ->
    c1 = c2.

(** What the conversation routes keep true of the database. *)
Definition store_inv (d : Store) : Prop :=
  membership_keys_ok d = true
  /\ NoDup (map Conversation.id (conversations d))
  /\ direct_ok d
  /\ one_direct_per_pair d.

Definition server_error : Response := status_json 500 (BError "server_error").

(** A group request ends with a new group conversation: [r] answers with
    it, the conversation table gains that one row, the membership table
    gains one row per member of {requester} ∪ memberIds, all of the new
    conversation, and no lookup was made. *)
Definition group_created (g : Gen) (s : Server) (uid : string)
           (memberIds : list string) (title : option string)
           (r : result Response * Server) : Prop :=
  exists listed rows,
    fst r = Done (json (BConversation (created_conversation g true title) listed))
    /\ conversations (db (snd r))
       = conversations (db s) ++ [created_conversation g true title]
    /\ memberships (db (snd r)) = memberships (db s) ++ rows
    /\ NoDup (map Membership.userId rows)
    /\ list_to_set (map Membership.userId rows) = member_set uid memberIds
    /\ Forall (fun m => Membership.conversationId m = new_id g 0) rows
    /\ users (db (snd r)) = users (db s)
    /\ messages (db (snd r)) = messages (db s)
    /\ queries (snd r) = queries s ++ [ConversationCreate].

(** The request failed and wrote nothing. *)
Definition refused (s : Server) (r : result Response * Server) : Prop :=
  (fst r = Done bad_cardinality \/ fst r = Done server_error)
  /\ db (snd r) = db s /\ rooms (snd r) = rooms s /\ outbox (snd r) = outbox s.

(** ** Messages *)

(** The acknowledgment of the message with id [msgId] by [sock] ended well
    in [s2] after [s1]: the stored [deliveredTo] is [ids] and one
    [message_updated] carrying [ids] went to the room [room]. *)
Definition delivered_recorded (s1 s2 : Server) (msgId : string)
           (ids : list string) (room : gset string) : Prop :=
  option_map Message.deliveredTo (prisma.find_message (db s2) msgId)
  = Some (JArray ids)
  /\ outbox s2 = outbox s1 ++ [mkEmit room (MessageUpdatedDelivered msgId ids)].

(** ** Accounts, presence, push *)

(** The unique index on [User.email]. *)
Definition emails_unique (d : Store) : Prop :=
  NoDup (map User.email (users d)).

(** The unique index on [Subscription.userId]. *)
Definition one_subscription_per_user (subs : list Subscription.t) : Prop :=
  NoDup (map Subscription.userId subs).

(** The session both [register] and [login] answer with for the user [u],
    the email being the one of the request. *)
Definition session_of (email : string) (u : User.t) : Session :=
  mkSession (mkToken (User.id u) (User.email u))
            (mkUserView (User.id u) email (User.displayName u)).

(** The row [register] inserts. *)
Definition registered_user (B : Bcrypt) (g : Gen) (salt email password displayName : string)
  : User.t :=
  User.mk (new_id g 0) email (bcrypt_hash B salt password) displayName None
          (now g) (now g).

Definition invalid_credentials : Reply Session :=
  reply_error 401 "invalid_credentials".

(** Every column of a user row but [lastSeenAt]. *)
Definition same_but_lastSeenAt (old new : User.t) : Prop :=
  User.id new = User.id old
  /\ User.email new = User.email old
  /\ User.passwordHash new = User.passwordHash old
  /\ User.displayName new = User.displayName old
  /\ User.avatarUrl new = User.avatarUrl old
  /\ User.createdAt new = User.createdAt old.

(** The application of the scenario, with a toy [bcrypt] that keeps the
    password after the salt. *)
Module Site.

Definition bcrypt : Bcrypt :=
  mkBcrypt (fun salt password => salt +:+ password)
           (fun password hash => String.eqb hash ("$2a$10$" +:+ password)).

Definition app : App := mkApp Scenario.server [] [] [].

Definition subscribed : App :=
  mkApp Scenario.server [Subscription.mk "S1" "A" "{}"] [] [].

End Site.

(** What [login] and [GET /me] answer right after a registration answered
    with [session] and left the application in [a1]: the same session, and
    the profile of the new user. *)
Definition account_round_trip (B : Bcrypt) (g : Gen) (email password displayName : string)
           (a1 : App) (session : Session) : Prop :=
  tok_uid (session_token session) = new_id g 0
  /\ tok_email (session_token session) = email
  /\ fst (auth_login B email password a1) = Fine (reply_json session)
  /\ fst (get_me (Some (tok_uid (session_token session))) a1)
     = Fine (reply_json (mkProfile (new_id g 0) email displayName (now g))).

(** ** Conversation lists *)

(** The conversations [GET /conversations] returns for [uid], in the order
    of the membership table. *)
Definition conversations_listed (d : Store) (uid : string)
  : list (option Conversation.t) :=
  map (fun m => prisma_app.find_conversation d (Membership.conversationId m))
      (List.filter (fun m => String.eqb (Membership.userId m) uid) (memberships d)).

(** ** The client and the server together *)

(** The three listeners of the client's socket, as one step on the message
    list: [cid] is the open conversation and [me] the user's id. *)
Definition client_on_event (cid me : option string) (e : Event)
           (msgs : list Message.t) : list Message.t * list Client.Emitted :=
  match e with
  | MessageCreated m => Client.on_message_created cid me m msgs
  | Typing _ _ _ => (msgs, [])
  | _ =>
      match Client.update_of_event e with
      | Some u => (Client.on_message_updated u msgs, [])
      | None => (msgs, [])
      end
  end.


(** The rows of one conversation, which is what a client that opened it
    holds. *)
Definition rows_of_conversation_view (cid : string) (rows : list Message.t)
  : list Message.t :=
  List.filter (fun m => String.eqb (Message.conversationId m) cid) rows.

(** After the acknowledgment handled by [handler], a client that held the
    rows of a conversation and applied the emitted event holds the rows of
    that conversation as they now are in the table. *)
Definition client_follows (handler : AckHandler) (s : Server) (sock : Socket)
           (cid msgId : string) : Prop :=
  exists s' e,
    handler sock (Some cid) (Some msgId) s = (Done tt, s')
    /\ outbox s' = outbox s ++ [e]
    /\ forall view me open,
         fst (client_on_event open me (event e)
                              (rows_of_conversation_view view (messages (db s))))
         = rows_of_conversation_view view (messages (db s')).

(** [uid] is recorded in the set [field] of the stored message [msgId]. *)
Definition recorded (field : Message.t -> Json) (d : Store) (msgId uid : string)
  : Prop :=
  exists m, prisma.find_message d msgId = Some m /\ In uid (as_array (field m)).

(** From [s] to [s1] no message row was lost and nothing recorded was
    forgotten. *)
Definition keeps (s s1 : Server) : Prop :=
  (forall x, prisma.message_exists (db s) x = true ->
             prisma.message_exists (db s1) x = true)
  /\ (forall x u, recorded Message.deliveredTo (db s) x u ->
                  recorded Message.deliveredTo (db s1) x u)
  /\ (forall x u, recorded Message.readBy (db s) x u ->
                  recorded Message.readBy (db s1) x u).

(** The acknowledgment [e] names a conversation and a stored message. *)
Definition ack_of_stored (d : Store) (e : Client.Emitted) : Prop :=
  match e with
  | Client.AckDelivered cid msgId | Client.AckRead cid msgId =>
      cid <> "" /\ msgId <> "" /\ prisma.message_exists d msgId = true
  end.

(** What the acknowledgment [e] of [uid] asks for is recorded in [d]. *)
Definition ack_recorded (d : Store) (uid : string) (e : Client.Emitted) : Prop :=
  match e with
  | Client.AckDelivered _ msgId => recorded Message.deliveredTo d msgId uid
  | Client.AckRead _ msgId => recorded Message.readBy d msgId uid
  end.

(** * Properties *)

(** ** Basic facts about the JavaScript helpers *)

Lemma or_null_Some (s : string) : s <> "" -> JS.or_null (Some s) = Some s.
Proof.
  intros Hs. unfold JS.or_null, JS.truthy.
  destruct (String.eqb_spec s ""); [contradiction | reflexivity].
Qed.

Lemma or_null_inv (v : option string) (s : string) :
  JS.or_null v = Some s -> v = Some s /\ s <> "".
Proof.
  unfold JS.or_null, JS.truthy. destruct v as [t|]; [|discriminate].
  destruct (String.eqb_spec t ""); simpl; [discriminate|].
  intros [= ->]. split; [reflexivity | assumption].
Qed.

Lemma or_null_None (v : option string) :
  JS.or_null v = None <-> JS.truthy v = false.
Proof.
  unfold JS.or_null. destruct (JS.truthy v) eqn:E; split; try congruence.
  intros ->. discriminate E.
Qed.

Lemma array_includes_In (xs : list string) (x : string) :
  JS.array_includes xs x = true <-> In x xs.
Proof.
  unfold JS.array_includes. rewrite existsb_exists. split.
  - intros (y & Hy & Heq). apply String.eqb_eq in Heq. now subst.
  - intros Hin. exists x. split; [assumption | apply String.eqb_refl].
Qed.

Lemma push_absent_incl (xs : list string) (uid : string) :
  forall u, In u xs -> In u (push_absent xs uid).
Proof.
  intros u Hu. unfold push_absent.
  destruct (JS.array_includes xs uid); [assumption|].
  apply in_or_app. now left.
Qed.

Lemma push_absent_In (xs : list string) (uid : string) :
  In uid (push_absent xs uid).
Proof.
  unfold push_absent. destruct (JS.array_includes xs uid) eqn:E.
  - now apply array_includes_In.
  - apply in_or_app. right. now left.
Qed.

Lemma push_absent_only (xs : list string) (uid u : string) :
  In u (push_absent xs uid) -> In u xs \/ u = uid.
Proof.
  unfold push_absent. destruct (JS.array_includes xs uid); [now left|].
  intros H. apply in_app_or in H as [H|[H|[]]]; [now left | now right].
Qed.

Lemma push_absent_idem (xs : list string) (uid : string) :
  push_absent (push_absent xs uid) uid = push_absent xs uid.
Proof.
  unfold push_absent at 1.
  destruct (JS.array_includes (push_absent xs uid) uid) eqn:E; [reflexivity|].
  pose proof (push_absent_In xs uid) as H.
  apply array_includes_In in H. congruence.
Qed.

(** ** Running the message queries *)

Section MessageRows.

Variable msgId : string.
Variable data : Message.t -> Message.t.
Hypothesis data_id : forall m, Message.id (data m) = Message.id m.

Lemma find_message_exists (d : Store) (m : Message.t) :
  prisma.find_message d msgId = Some m ->
  prisma.message_exists d msgId = true /\ Message.id m = msgId /\ In m (messages d).
Proof.
  unfold prisma.find_message, prisma.message_exists. intros H.
  apply find_some in H as [Hin Heq]. apply String.eqb_eq in Heq.
  repeat split; try assumption.
  apply existsb_exists. exists m. split; [assumption|].
  now apply String.eqb_eq.
Qed.

Lemma find_message_absent (d : Store) :
  prisma.message_exists d msgId = false <-> prisma.find_message d msgId = None.
Proof.
  unfold prisma.find_message, prisma.message_exists.
  induction (messages d) as [|m rows IH]; simpl; [tauto|].
  destruct (String.eqb (Message.id m) msgId); simpl; [split; discriminate | exact IH].
Qed.

Lemma find_update_rows (rows : list Message.t) (m : Message.t) :
  List.find (fun m => String.eqb (Message.id m) msgId) rows = Some m ->
  List.find (fun m => String.eqb (Message.id m) msgId)
            (prisma.update_rows msgId data rows) = Some (data m).
Proof.
  induction rows as [|r rows IH]; simpl; [discriminate|].
  destruct (String.eqb (Message.id r) msgId) eqn:E.
  - intros [= ->]. simpl. rewrite data_id, E. reflexivity.
  - intros H. simpl. rewrite E. now apply IH.
Qed.

Lemma update_rows_other (rows : list Message.t) :
  Forall2 (fun old new => Message.id new = Message.id old
                          /\ (Message.id old = msgId -> new = data old)
                          /\ (Message.id old <> msgId -> new = old))
          rows (prisma.update_rows msgId data rows).
Proof.
  induction rows as [|r rows IH]; simpl; constructor; [|exact IH].
  destruct (String.eqb_spec (Message.id r) msgId) as [E|E].
  - split; [apply data_id | split; [reflexivity | contradiction]].
  - split; [reflexivity | split; [contradiction | reflexivity]].
Qed.

Lemma update_rows_fixed (rows : list Message.t) :
  (forall m, In m rows -> Message.id m = msgId -> data m = m) ->
  prisma.update_rows msgId data rows = rows.
Proof.
  induction rows as [|r rows IH]; simpl; intros H; [reflexivity|].
  rewrite IH by (intros m Hm; apply H; now right). f_equal.
  destruct (String.eqb_spec (Message.id r) msgId) as [E|E]; [|reflexivity].
  apply H; [now left | assumption].
Qed.

Lemma In_update_rows (rows : list Message.t) (m' : Message.t) :
  In m' (prisma.update_rows msgId data rows) ->
  exists m, In m rows /\
            m' = if String.eqb (Message.id m) msgId then data m else m.
Proof.
  unfold prisma.update_rows. rewrite in_map_iff.
  intros (m & <- & Hin). exists m. split; [assumption | reflexivity].
Qed.

Lemma message_update_run (s : Server) :
  prisma.message_exists (db s) msgId = true ->
  prisma.message_update msgId data s =
    (Done tt,
     mkServer (mkStore (users (db s)) (conversations (db s)) (memberships (db s))
                       (prisma.update_rows msgId data (messages (db s))))
              (rooms s) (queries s ++ [MessageUpdate]) (outbox s)).
Proof.
  intros H. unfold prisma.message_update, bind, log_query, get_db, put_db.
  simpl. rewrite H. reflexivity.
Qed.

End MessageRows.

(** ** The acknowledgment handlers, step by step *)

Lemma on_ack_delivered_run (s : Server) (sock : Socket) (cid msgId : string)
      (m : Message.t) :
  cid <> "" -> msgId <> "" ->
  prisma.find_message (db s) msgId = Some m ->
  on_ack_delivered sock (Some cid) (Some msgId) s =
    (Done tt,
     after_ack s msgId
       (Message.with_deliveredTo (JArray (delivered_after m (s_uid sock))))
       (mkEmit (room_of (rooms s) (cid_room cid))
               (MessageUpdatedDelivered msgId (delivered_after m (s_uid sock))))).
Proof.
  intros Hc Hm Hfind. unfold on_ack_delivered.
  rewrite !or_null_Some by assumption.
  unfold bind at 1. unfold prisma.message_findUnique, bind, log_query, get_db, ret.
  simpl. rewrite Hfind.
  rewrite message_update_run
    by (simpl; eapply find_message_exists; eassumption).
  unfold io_to_emit, after_ack, delivered_after. simpl.
  rewrite <- app_assoc. reflexivity.
Qed.

Lemma on_ack_read_run (s : Server) (sock : Socket) (cid msgId : string)
      (m : Message.t) :
  cid <> "" -> msgId <> "" ->
  prisma.find_message (db s) msgId = Some m ->
  on_ack_read sock (Some cid) (Some msgId) s =
    (Done tt,
     after_ack s msgId
       (Message.with_readBy (JArray (read_after m (s_uid sock))))
       (mkEmit (room_of (rooms s) (cid_room cid))
               (MessageUpdatedRead msgId (read_after m (s_uid sock))))).
Proof.
  intros Hc Hm Hfind. unfold on_ack_read.
  rewrite !or_null_Some by assumption.
  unfold bind at 1. unfold prisma.message_findUnique, bind, log_query, get_db, ret.
  simpl. rewrite Hfind.
  rewrite message_update_run
    by (simpl; eapply find_message_exists; eassumption).
  unfold io_to_emit, after_ack, read_after. simpl.
  rewrite <- app_assoc. reflexivity.
Qed.

Lemma find_after_ack (s : Server) (msgId : string) (data : Message.t -> Message.t)
      (e : Emit) (m : Message.t) :
  (forall x, Message.id (data x) = Message.id x) ->
  prisma.find_message (db s) msgId = Some m ->
  prisma.find_message (db (after_ack s msgId data e)) msgId = Some (data m).
Proof.
  intros Hid Hfind. unfold prisma.find_message, after_ack. simpl.
  now apply find_update_rows.
Qed.

(** Writing the value a row already holds changes nothing. *)
Lemma after_ack_same_db (s : Server) (msgId : string)
      (data : Message.t -> Message.t) (e e' : Emit) :
  (forall x, data (data x) = data x) ->
  db (after_ack (after_ack s msgId data e) msgId data e')
  = db (after_ack s msgId data e).
Proof.
  intros Hidem. unfold after_ack. simpl. f_equal.
  apply update_rows_fixed. intros m' Hin Hid'.
  apply In_update_rows in Hin as (m0 & _ & ->).
  destruct (String.eqb_spec (Message.id m0) msgId); [apply Hidem | contradiction].
Qed.

(** ** Acknowledgments *)

(** C2. Acknowledgment sets only grow, and acknowledging twice is the same
    as acknowledging once: when the message exists, [ack_delivered] succeeds
    and the stored [deliveredTo] holds every id it held before, holds the
    acknowledging user, and holds nothing else new; a second
    [ack_delivered] by the same user succeeds and leaves the database as
    the first one left it.  The same holds for [ack_read] and [readBy]. *)
Theorem ack_sets_grow_and_are_idempotent
        (s : Server) (sock : Socket) (cid msgId : string) (m : Message.t) :
  cid <> "" -> msgId <> "" ->
  prisma.find_message (db s) msgId = Some m ->
  ack_grows_idempotent on_ack_delivered Message.deliveredTo s sock cid msgId m
  /\ ack_grows_idempotent on_ack_read Message.readBy s sock cid msgId m.
Proof.
  intros Hc Hm Hfind. unfold ack_grows_idempotent. split.
  - pose proof (on_ack_delivered_run s sock cid msgId m Hc Hm Hfind) as Hrun.
    set (l1 := delivered_after m (s_uid sock)) in *.
    set (data := Message.with_deliveredTo (JArray l1)) in *.
    set (e1 := mkEmit _ _) in Hrun.
    assert (Hfind1 : prisma.find_message (db (after_ack s msgId data e1)) msgId
                     = Some (data m))
      by (apply find_after_ack; [reflexivity | assumption]).
    pose proof (on_ack_delivered_run _ sock cid msgId _ Hc Hm Hfind1) as Hrun2.
    assert (Hl : delivered_after (data m) (s_uid sock) = l1)
      by (unfold delivered_after; simpl; apply push_absent_idem).
    rewrite Hl in Hrun2. fold data in Hrun2.
    eexists _, (data m), _. split; [exact Hrun|].
    split; [exact Hfind1|]. simpl.
    split; [apply push_absent_incl|].
    split; [apply push_absent_In|].
    split; [apply push_absent_only|].
    split; [exact Hrun2|].
    apply after_ack_same_db. reflexivity.
  - pose proof (on_ack_read_run s sock cid msgId m Hc Hm Hfind) as Hrun.
    set (l1 := read_after m (s_uid sock)) in *.
    set (data := Message.with_readBy (JArray l1)) in *.
    set (e1 := mkEmit _ _) in Hrun.
    assert (Hfind1 : prisma.find_message (db (after_ack s msgId data e1)) msgId
                     = Some (data m))
      by (apply find_after_ack; [reflexivity | assumption]).
    pose proof (on_ack_read_run _ sock cid msgId _ Hc Hm Hfind1) as Hrun2.
    assert (Hl : read_after (data m) (s_uid sock) = l1)
      by (unfold read_after; simpl; apply push_absent_idem).
    rewrite Hl in Hrun2. fold data in Hrun2.
    eexists _, (data m), _. split; [exact Hrun|].
    split; [exact Hfind1|]. simpl.
    split; [apply push_absent_incl|].
    split; [apply push_absent_In|].
    split; [apply push_absent_only|].
    split; [exact Hrun2|].
    apply after_ack_same_db. reflexivity.
Qed.

Lemma ack_sets_grow_and_are_idempotent_witness :
  "C" <> "" /\ "m1" <> ""
  /\ prisma.find_message (db Scenario.server) "m1" = Some Scenario.hi
  /\ ack_grows_idempotent on_ack_delivered Message.deliveredTo
                          Scenario.server Scenario.sockB "C" "m1" Scenario.hi
  /\ ack_grows_idempotent on_ack_read Message.readBy
                          Scenario.server Scenario.sockB "C" "m1" Scenario.hi.
Proof.
  split; [discriminate|]. split; [discriminate|]. split; [reflexivity|].
  apply ack_sets_grow_and_are_idempotent; [discriminate | discriminate | reflexivity].
Defined.

Lemma on_ack_delivered_missing (s : Server) (sock : Socket) (cid msgId : string) :
  cid <> "" -> msgId <> "" ->
  prisma.message_exists (db s) msgId = false ->
  on_ack_delivered sock (Some cid) (Some msgId) s =
    (Threw TypeError,
     mkServer (db s) (rooms s) (queries s ++ [MessageFindUnique]) (outbox s)).
Proof.
  intros Hc Hm Hnone. apply find_message_absent in Hnone.
  unfold on_ack_delivered. rewrite !or_null_Some by assumption.
  unfold bind, prisma.message_findUnique, log_query, get_db, ret. simpl.
  rewrite Hnone. reflexivity.
Qed.

Lemma on_ack_read_missing (s : Server) (sock : Socket) (cid msgId : string) :
  cid <> "" -> msgId <> "" ->
  prisma.message_exists (db s) msgId = false ->
  on_ack_read sock (Some cid) (Some msgId) s =
    (Threw TypeError,
     mkServer (db s) (rooms s) (queries s ++ [MessageFindUnique]) (outbox s)).
Proof.
  intros Hc Hm Hnone. apply find_message_absent in Hnone.
  unfold on_ack_read. rewrite !or_null_Some by assumption.
  unfold bind, prisma.message_findUnique, log_query, get_db, ret. simpl.
  rewrite Hnone. reflexivity.
Qed.

(** C5. Acknowledging a message id that is not in the store is not guarded:
    [findUnique] yields null, the handler reads a property of it and throws
    a [TypeError] that nothing catches; nothing is written and nothing is
    broadcast.  This holds for [ack_delivered] and for [ack_read], for
    every non-empty conversation id and every non-empty message id that
    names no row. *)
Theorem ack_of_missing_message_throws
        (s : Server) (sock : Socket) (cid msgId : string) :
  cid <> "" -> msgId <> "" ->
  prisma.message_exists (db s) msgId = false ->
  ack_throws on_ack_delivered s sock cid msgId
  /\ ack_throws on_ack_read s sock cid msgId.
Proof.
  intros Hc Hm Hnone. unfold ack_throws. split; eexists.
  - rewrite on_ack_delivered_missing by assumption. simpl. repeat split.
  - rewrite on_ack_read_missing by assumption. simpl. repeat split.
Qed.

Lemma ack_of_missing_message_throws_witness :
  "C" <> "" /\ "nope" <> ""
  /\ prisma.message_exists (db Scenario.server) "nope" = false
  /\ ack_throws on_ack_delivered Scenario.server Scenario.sockB "C" "nope"
  /\ ack_throws on_ack_read Scenario.server Scenario.sockB "C" "nope".
Proof.
  split; [discriminate|]. split; [discriminate|]. split; [reflexivity|].
  apply ack_of_missing_message_throws; [discriminate | discriminate | reflexivity].
Defined.

Lemma after_ack_frame (s : Server) (msgId : string) (data : Message.t -> Message.t)
      (e : Emit) (same_but : Message.t -> Message.t -> Prop) :
  (forall x, Message.id (data x) = Message.id x) ->
  (forall x, same_but x (data x)) ->
  (forall x, same_but x x) ->
  Forall2 (fun old new => same_but old new
                          /\ (Message.id old <> msgId -> new = old))
          (messages (db s)) (messages (db (after_ack s msgId data e))).
Proof.
  intros Hid Hdata Hrefl. unfold after_ack. simpl.
  eapply Forall2_impl; [apply update_rows_other; exact Hid|].
  intros old new (_ & Hhit & Hmiss). split; [|exact Hmiss].
  destruct (String.eqb_spec (Message.id old) msgId) as [E|E].
  - rewrite (Hhit E). apply Hdata.
  - rewrite (Hmiss E). apply Hrefl.
Qed.

(** C7. An acknowledgment changes one column of one row: when the message
    exists, [ack_delivered] succeeds, leaves the user, conversation and
    membership tables and the rooms as they were, keeps every message row
    in place with its id, conversation id, author, kind, text, file url,
    creation time and [readBy] unchanged, and leaves every row with
    another id wholly unchanged.  [ack_read] does the same with
    [deliveredTo] in the place of [readBy]. *)
Theorem ack_changes_only_its_set
        (s : Server) (sock : Socket) (cid msgId : string) (m : Message.t) :
  cid <> "" -> msgId <> "" ->
  prisma.find_message (db s) msgId = Some m ->
  ack_frame on_ack_delivered same_but_deliveredTo s sock cid msgId
  /\ ack_frame on_ack_read same_but_readBy s sock cid msgId.
Proof.
  intros Hc Hm Hfind. unfold ack_frame. split; eexists.
  - rewrite (on_ack_delivered_run s sock cid msgId m) by assumption.
    split; [reflexivity|]. do 4 (split; [reflexivity|]).
    apply after_ack_frame; intros x; unfold same_but_deliveredTo; simpl;
      repeat split; reflexivity.
  - rewrite (on_ack_read_run s sock cid msgId m) by assumption.
    split; [reflexivity|]. do 4 (split; [reflexivity|]).
    apply after_ack_frame; intros x; unfold same_but_readBy; simpl;
      repeat split; reflexivity.
Qed.

Lemma ack_changes_only_its_set_witness :
  "C" <> "" /\ "m2" <> ""
  /\ prisma.find_message (db Scenario.server) "m2" = Some Scenario.pic
  /\ ack_frame on_ack_delivered same_but_deliveredTo
               Scenario.server Scenario.sockB "C" "m2"
  /\ ack_frame on_ack_read same_but_readBy
               Scenario.server Scenario.sockB "C" "m2".
Proof.
  split; [discriminate|]. split; [discriminate|]. split; [reflexivity|].
  apply (ack_changes_only_its_set _ _ _ _ Scenario.pic);
    [discriminate | discriminate | reflexivity].
Defined.

(** ** Rooms *)

Lemma room_of_insert (r : gmap string (gset string)) (room : string)
      (members : gset string) :
  room_of (<[room := members]> r) room = members.
Proof. unfold room_of. now rewrite lookup_insert_eq. Qed.

Lemma room_of_insert_ne (r : gmap string (gset string)) (room room' : string)
      (members : gset string) :
  room <> room' -> room_of (<[room := members]> r) room' = room_of r room'.
Proof. intros Hne. unfold room_of. now rewrite lookup_insert_ne. Qed.

(** Joining puts the socket in the room and keeps who was there; leaving
    takes it out; neither touches the database. *)
Lemma join_conversation_joins (s : Server) (sock : Socket) (cid : string) :
  cid <> "" ->
  exists s',
    on_join_conversation sock (Some cid) s = (Done tt, s')
    /\ db s' = db s
    /\ forall x, x ∈ room_of (rooms s') (cid_room cid)
                 <-> x = sid sock \/ x ∈ room_of (rooms s) (cid_room cid).
Proof.
  intros Hc. unfold on_join_conversation. rewrite or_null_Some by assumption.
  eexists. split; [reflexivity|]. split; [reflexivity|]. simpl.
  intros x. rewrite room_of_insert, elem_of_union, elem_of_singleton. tauto.
Qed.

Lemma leave_conversation_leaves (s : Server) (sock : Socket) (cid : string) :
  cid <> "" ->
  exists s',
    on_leave_conversation sock (Some cid) s = (Done tt, s')
    /\ db s' = db s
    /\ forall x, x ∈ room_of (rooms s') (cid_room cid)
                 <-> x ∈ room_of (rooms s) (cid_room cid) /\ x <> sid sock.
Proof.
  intros Hc. unfold on_leave_conversation. rewrite or_null_Some by assumption.
  eexists. split; [reflexivity|]. split; [reflexivity|]. simpl.
  intros x. rewrite room_of_insert, elem_of_difference, elem_of_singleton. tauto.
Qed.

(** ** Typing indicators *)

(** C8. A [typing] event with a non-empty conversation id is re-broadcast
    as [Typing cid uid flag] to every socket of the room "cid:<cid>"
    except the sender's own, where [flag] is the boolean the event carried
    and false when it carried none; with a missing (or empty) conversation
    id it is ignored: no broadcast, no change at all. *)
Theorem typing_goes_to_room_but_sender
        (s : Server) (sock : Socket) (cid : option string) (isTyping : option bool) :
  match cid with
  | Some c =>
      if String.eqb c ""
      then dropped (on_typing sock cid isTyping) s
      else match isTyping with
           | Some flag => typing_broadcast s sock c (Some flag) flag
           | None => typing_broadcast s sock c None false
           end
  | None => dropped (on_typing sock cid isTyping) s
  end.
Proof.
  destruct cid as [c|]; [|reflexivity].
  destruct (String.eqb_spec c "") as [->|Hc]; [reflexivity|].
  assert (Hrooms : forall x : string,
             x ∈ room_of (rooms s) (cid_room c) ∖ {[sid sock]} <->
             x ∈ default ∅ (rooms s !! ("cid:" +:+ c)) /\ x <> sid sock).
  { intros x. unfold room_of, cid_room.
    rewrite elem_of_difference, elem_of_singleton. reflexivity. }
  destruct isTyping as [flag|];
    unfold typing_broadcast, on_typing; rewrite or_null_Some by assumption;
    (eexists _, _; split; [reflexivity|]; simpl;
     do 3 (split; [reflexivity|]); split; [reflexivity | exact Hrooms]).
Qed.

(** ** Sending a message *)

Lemma on_send_message_run (g : Gen) (s : Server) (sock : Socket)
      (cid kind : string) (text fileUrl : option string) :
  cid <> "" -> kind <> "" ->
  prisma.conversation_exists (db s) cid = true ->
  prisma.user_exists (db s) (s_uid sock) = true ->
  on_send_message g sock (Some cid) (Some kind) text fileUrl s =
    (Done tt,
     mkServer (mkStore (users (db s)) (conversations (db s)) (memberships (db s))
                       (messages (db s) ++ [sent_message g sock cid kind text fileUrl]))
              (rooms s)
              (queries s ++ [MessageCreate])
              (outbox s ++ [mkEmit (room_of (rooms s) (cid_room cid))
                                   (MessageCreated
                                      (sent_message g sock cid kind text fileUrl))])).
Proof.
  intros Hc Hk Hconv Huser. unfold on_send_message.
  rewrite (or_null_Some cid), (or_null_Some kind) by assumption.
  unfold bind, prisma.message_create, bind, log_query, get_db, put_db, ret.
  simpl. rewrite Hconv, Huser. reflexivity.
Qed.

Lemma on_send_message_rejected (g : Gen) (s : Server) (sock : Socket)
      (cid kind : string) (text fileUrl : option string) :
  cid <> "" -> kind <> "" ->
  prisma.conversation_exists (db s) cid && prisma.user_exists (db s) (s_uid sock)
  = false ->
  on_send_message g sock (Some cid) (Some kind) text fileUrl s =
    (Threw ForeignKeyFailed,
     mkServer (db s) (rooms s) (queries s ++ [MessageCreate]) (outbox s)).
Proof.
  intros Hc Hk Hfk. unfold on_send_message.
  rewrite (or_null_Some cid), (or_null_Some kind) by assumption.
  unfold bind, prisma.message_create, bind, log_query, get_db, put_db, ret.
  simpl. rewrite Hfk. reflexivity.
Qed.

Lemma on_send_message_dropped (g : Gen) (s : Server) (sock : Socket)
      (cid kind text fileUrl : option string) :
  JS.truthy cid && JS.truthy kind = false ->
  dropped (on_send_message g sock cid kind text fileUrl) s.
Proof.
  intros H. unfold dropped, on_send_message.
  apply andb_false_iff in H as [H|H]; apply or_null_None in H; rewrite H.
  - reflexivity.
  - destruct (JS.or_null cid); reflexivity.
Qed.

Lemma send_persists_and_broadcasts_intro (g : Gen) (s : Server) (sock : Socket)
      (cid kind : string) (text fileUrl : option string) :
  cid <> "" -> kind <> "" ->
  prisma.conversation_exists (db s) cid = true ->
  prisma.user_exists (db s) (s_uid sock) = true ->
  send_persists_and_broadcasts g s sock cid kind text fileUrl.
Proof.
  intros Hc Hk Hconv Huser. unfold send_persists_and_broadcasts.
  eexists _, _, _.
  rewrite on_send_message_run by assumption.
  split; [reflexivity|]. simpl. repeat (split; [reflexivity|]).
  intros H. exact H.
Qed.

(** C6, as stated, fails on a conversation id that names no conversation:
    the id and the kind are non-empty, yet the schema's foreign key on
    [Message.conversationId] refuses the insert, so no message is
    persisted and nothing is broadcast. *)
Lemma send_message_to_unknown_conversation :
  JS.truthy (Some "nope") && JS.truthy (Some "text") = true
  /\ fst (on_send_message Scenario.gen Scenario.sockA
                          (Some "nope") (Some "text") (Some "hi") None
                          Scenario.server)
     = Threw ForeignKeyFailed
  /\ ~ send_persists_and_broadcasts Scenario.gen Scenario.server Scenario.sockA
                                    "nope" "text" (Some "hi") None.
Proof.
  assert (Hrun := on_send_message_rejected Scenario.gen Scenario.server
                    Scenario.sockA "nope" "text" (Some "hi") None).
  specialize (Hrun ltac:(discriminate) ltac:(discriminate) eq_refl).
  split; [reflexivity|]. split; [rewrite Hrun; reflexivity|].
  intros (s' & msg & e & Hdone & _). rewrite Hrun in Hdone. discriminate Hdone.
Qed.

(** C6, amended. A [send_message] event whose conversation id or kind is
    missing or empty is dropped: no state change, no broadcast.  Otherwise,
    when the conversation id names a conversation and the sender a user,
    one message is persisted with empty [deliveredTo] and [readBy] and the
    stored message is broadcast to every socket in the room, the sender's
    included; when one of the two rows is missing the insert is refused,
    nothing is persisted and nothing is broadcast. *)
Theorem send_message_persists_then_broadcasts
        (g : Gen) (s : Server) (sock : Socket)
        (cid kind text fileUrl : option string) :
  match cid, kind with
  | Some c, Some k =>
      if String.eqb c "" || String.eqb k ""
      then dropped (on_send_message g sock cid kind text fileUrl) s
      else if prisma.conversation_exists (db s) c
              && prisma.user_exists (db s) (s_uid sock)
           then send_persists_and_broadcasts g s sock c k text fileUrl
           else send_rejected g s sock c k text fileUrl
  | _, _ => dropped (on_send_message g sock cid kind text fileUrl) s
  end.
Proof.
  destruct cid as [c|], kind as [k|];
    try (apply on_send_message_dropped; simpl;
         try reflexivity; apply andb_false_r).
  destruct (String.eqb_spec c "") as [->|Hc]; [reflexivity|].
  destruct (String.eqb_spec k "") as [->|Hk]; simpl.
  - apply on_send_message_dropped. simpl. apply andb_false_r.
  - destruct (prisma.conversation_exists (db s) c
              && prisma.user_exists (db s) (s_uid sock)) eqn:Hfk.
    + apply andb_true_iff in Hfk as [Hconv Huser].
      now apply send_persists_and_broadcasts_intro.
    + unfold send_rejected. eexists.
      rewrite on_send_message_rejected by assumption.
      simpl. repeat split.
Qed.

(** C10, as stated, fails for the same reason on another input: Carol is
    authenticated and the conversation id "ghost" is not empty, but no
    conversation has that id and the message is not persisted. *)
Lemma send_message_by_anyone_to_unknown_conversation :
  prisma.user_exists (db Scenario.server) (s_uid Scenario.sockK) = true
  /\ JS.truthy (Some "ghost") && JS.truthy (Some "text") = true
  /\ ~ send_persists_and_broadcasts Scenario.gen Scenario.server Scenario.sockK
                                    "ghost" "text" (Some "boo") None.
Proof.
  assert (Hrun := on_send_message_rejected Scenario.gen Scenario.server
                    Scenario.sockK "ghost" "text" (Some "boo") None).
  specialize (Hrun ltac:(discriminate) ltac:(discriminate) eq_refl).
  split; [reflexivity|]. split; [reflexivity|].
  intros (s' & msg & e & Hdone & _). rewrite Hrun in Hdone. discriminate Hdone.
Qed.

(** The membership table plays no part in [on_send_message]. *)
Lemma on_send_message_with_memberships (g : Gen) (s : Server) (sock : Socket)
      (cid kind text fileUrl : option string) (ms : list Membership.t) :
  on_send_message g sock cid kind text fileUrl (with_memberships ms s)
  = (fst (on_send_message g sock cid kind text fileUrl s),
     with_memberships ms (snd (on_send_message g sock cid kind text fileUrl s))).
Proof.
  unfold on_send_message.
  destruct (JS.or_null cid) as [c|]; [|reflexivity].
  destruct (JS.or_null kind) as [k|]; [|reflexivity].
  unfold bind, prisma.message_create, bind, log_query, get_db, put_db, ret,
    prisma.conversation_exists, prisma.user_exists.
  simpl.
  destruct (existsb _ (conversations (db s)) && existsb _ (users (db s)));
    reflexivity.
Qed.

(** C10, amended. [send_message] performs no membership authorization: for
    every sender whose user row exists, every id of an existing
    conversation and every non-empty kind, whatever the membership table
    holds, the handler persists a message authored by the sender in that
    conversation and broadcasts it to the room; and its outcome on any
    membership table is its outcome on the present one. *)
Theorem send_message_checks_no_membership
        (g : Gen) (s : Server) (sock : Socket) (cid kind : string)
        (text fileUrl : option string) (ms : list Membership.t) :
  cid <> "" -> kind <> "" ->
  prisma.conversation_exists (db s) cid = true ->
  prisma.user_exists (db s) (s_uid sock) = true ->
  send_persists_and_broadcasts g (with_memberships ms s) sock cid kind text fileUrl
  /\ on_send_message g sock (Some cid) (Some kind) text fileUrl (with_memberships ms s)
     = (fst (on_send_message g sock (Some cid) (Some kind) text fileUrl s),
        with_memberships ms
          (snd (on_send_message g sock (Some cid) (Some kind) text fileUrl s))).
Proof.
  intros Hc Hk Hconv Huser. split.
  - apply send_persists_and_broadcasts_intro; assumption.
  - apply on_send_message_with_memberships.
Qed.

Lemma send_message_checks_no_membership_witness :
  "C" <> "" /\ "text" <> ""
  /\ prisma.conversation_exists (db Scenario.server) "C" = true
  /\ prisma.user_exists (db Scenario.server) (s_uid Scenario.sockK) = true
  /\ prisma.has_member (db (with_memberships [] Scenario.server)) "C" "K" = false
  /\ send_persists_and_broadcasts Scenario.gen (with_memberships [] Scenario.server)
                                  Scenario.sockK "C" "text" (Some "hello") None.
Proof.
  split; [discriminate|]. split; [discriminate|].
  split; [reflexivity|]. split; [reflexivity|]. split; [reflexivity|].
  apply (send_message_checks_no_membership
           Scenario.gen Scenario.server Scenario.sockK "C" "text"
           (Some "hello") None []);
    [discriminate | discriminate | reflexivity | reflexivity].
Defined.

(** ** User search *)

Lemma append_nil (s : string) : "" +:+ s = s.
Proof. reflexivity. Qed.

Lemma append_cons (c : ascii) (s t : string) :
  String c s +:+ t = String c (s +:+ t).
Proof. reflexivity. Qed.











Lemma sublist_List_filter {A} (f : A -> bool) (l : list A) :
  sublist (List.filter f l) l.
Proof.
  induction l as [|x l IH]; simpl; [constructor|].
  destruct (f x); now constructor.
Qed.




(** ** Conversations *)

Lemma set_add_elem_of (seen : list string) (x y : string) :
  y ∈ JS.set_add seen x <-> y ∈ seen \/ y = x.
Proof.
  induction seen as [|z seen IH]; simpl.
  - rewrite list_elem_of_singleton, elem_of_nil. tauto.
  - destruct (String.eqb_spec z x) as [->|Hzx].
    + rewrite elem_of_cons. intuition.
    + rewrite !elem_of_cons, IH. tauto.
Qed.

Lemma set_add_NoDup (seen : list string) (x : string) :
  NoDup seen -> NoDup (JS.set_add seen x).
Proof.
  induction seen as [|z seen IH]; simpl; intros Hnd.
  - apply NoDup_singleton.
  - destruct (String.eqb_spec z x) as [->|Hzx]; [assumption|].
    apply NoDup_cons in Hnd as [Hz Hnd]. apply NoDup_cons. split.
    + rewrite set_add_elem_of. intros [H| ->]; [contradiction | congruence].
    + now apply IH.
Qed.

Lemma fold_set_add_elem_of (xs acc : list string) (y : string) :
  y ∈ fold_left JS.set_add xs acc <-> y ∈ acc \/ y ∈ xs.
Proof.
  revert acc. induction xs as [|x xs IH]; intros acc; simpl.
  - rewrite elem_of_nil. tauto.
  - rewrite IH, set_add_elem_of, elem_of_cons. tauto.
Qed.

Lemma fold_set_add_NoDup (xs acc : list string) :
  NoDup acc -> NoDup (fold_left JS.set_add xs acc).
Proof.
  revert acc. induction xs as [|x xs IH]; intros acc Hnd; simpl; [assumption|].
  apply IH. now apply set_add_NoDup.
Qed.

(** [Array.from(new Set([uid, ...memberIds]))] lists the member set once. *)
Lemma array_from_set_spec (uid : string) (memberIds : list string) :
  NoDup (JS.array_from_set (uid :: memberIds))
  /\ list_to_set (JS.array_from_set (uid :: memberIds)) = member_set uid memberIds
  /\ length (JS.array_from_set (uid :: memberIds)) = size (member_set uid memberIds).
Proof.
  assert (Hnd : NoDup (JS.array_from_set (uid :: memberIds)))
    by (apply fold_set_add_NoDup; constructor).
  assert (Heq : list_to_set (JS.array_from_set (uid :: memberIds))
                = member_set uid memberIds).
  { apply set_eq. intros y. unfold member_set, JS.array_from_set.
    rewrite elem_of_list_to_set, fold_set_add_elem_of, elem_of_nil.
    rewrite elem_of_cons, elem_of_union, elem_of_singleton, elem_of_list_to_set.
    tauto. }
  split; [exact Hnd|]. split; [exact Heq|].
  rewrite <- Heq. symmetry. now apply size_list_to_set.
Qed.

(** C4. A direct-chat request ([isGroup] false) whose member set
    {requester} ∪ memberIds does not have exactly two elements is answered
    400 "direct chat must have exactly 2 members", and the server is left
    exactly as it was: no conversation, no membership, not even a query. *)
Theorem direct_chat_needs_two_members
        (g : Gen) (s : Server) (uid : string) (memberIds : list string)
        (title : option string) :
  size (member_set uid memberIds) <> 2 ->
  post_conversations g (Some uid) memberIds false title s
  = (Done bad_cardinality, s).
Proof.
  intros Hsize.
  destruct (array_from_set_spec uid memberIds) as (_ & _ & Hlen).
  rewrite <- Hlen in Hsize.
  unfold post_conversations, authMiddleware, try_catch. simpl negb. cbv iota.
  destruct (JS.array_from_set (uid :: memberIds)) as [|a [|b [|c l]]];
    try reflexivity.
  simpl in Hsize. contradiction.
Qed.

Lemma direct_chat_needs_two_members_witness :
  size (member_set "A" ["B"; "K"; "A"]) <> 2
  /\ post_conversations Scenario.gen (Some "A") ["B"; "K"; "A"] false None
                        Scenario.server
     = (Done bad_cardinality, Scenario.server).
Proof.
  assert (H : size (member_set "A" ["B"; "K"; "A"]) <> 2)
    by (vm_compute; discriminate).
  split; [exact H|]. apply direct_chat_needs_two_members. exact H.
Defined.

(** *** The direct-chat lookup *)

Lemma direct_between_sym (d : Store) (u1 u2 : string) (c : Conversation.t) :
  prisma.direct_between d u1 u2 c = prisma.direct_between d u2 u1 c.
Proof.
  unfold prisma.direct_between.
  rewrite <- !andb_assoc. f_equal. apply andb_comm.
Qed.

Lemma find_pointwise {A} (f f' : A -> bool) (l : list A) :
  (forall x, In x l -> f x = f' x) -> List.find f l = List.find f' l.
Proof.
  induction l as [|x l IH]; simpl; intros H; [reflexivity|].
  rewrite <- (H x) by now left.
  destruct (f x); [reflexivity|]. apply IH. intros y Hy. apply H. now right.
Qed.

Lemma find_snoc_first {A} (f : A -> bool) (l : list A) (x : A) :
  List.find f l = None -> f x = true -> List.find f (l ++ [x]) = Some x.
Proof.
  induction l as [|y l IH]; simpl; intros Hnone Hx.
  - now rewrite Hx.
  - destruct (f y); [discriminate|]. now apply IH.
Qed.

Lemma direct_candidate_sym (d : Store) (u1 u2 : string) :
  prisma.direct_candidate d u1 u2 = prisma.direct_candidate d u2 u1.
Proof.
  unfold prisma.direct_candidate.
  rewrite (find_pointwise _ (prisma.direct_between d u2 u1));
    [reflexivity | intros c _; apply direct_between_sym].
Qed.

Lemma direct_candidate_Some (d : Store) (u1 u2 : string)
      (c : Conversation.t) (ms : list Membership.t) :
  prisma.direct_candidate d u1 u2 = Some (c, ms) ->
  In c (conversations d)
  /\ Conversation.isGroup c = false
  /\ prisma.has_member d (Conversation.id c) u1 = true
  /\ prisma.has_member d (Conversation.id c) u2 = true
  /\ ms = prisma.memberships_of d (Conversation.id c).
Proof.
  unfold prisma.direct_candidate.
  destruct (List.find _ _) as [c'|] eqn:Hfind; [|discriminate].
  intros [= -> <-]. apply find_some in Hfind as [Hin Hb].
  unfold prisma.direct_between in Hb.
  apply andb_true_iff in Hb as [Hb H2]. apply andb_true_iff in Hb as [Hg H1].
  apply negb_true_iff in Hg. repeat split; assumption.
Qed.

Lemma conversation_exists_In (d : Store) (c : Conversation.t) :
  In c (conversations d) -> prisma.conversation_exists d (Conversation.id c) = true.
Proof.
  intros Hin. unfold prisma.conversation_exists. apply existsb_exists.
  exists c. split; [assumption | apply String.eqb_refl].
Qed.

(** A member of a stored conversation has a user row, by the foreign key. *)
Lemma has_member_user_exists (d : Store) (cid uid : string) :
  membership_keys_ok d = true ->
  prisma.has_member d cid uid = true ->
  prisma.user_exists d uid = true.
Proof.
  unfold membership_keys_ok, prisma.has_member. intros Hok Hmem.
  apply existsb_exists in Hmem as (m & Hin & Hm).
  apply andb_true_iff in Hm as [_ Hu]. apply String.eqb_eq in Hu. subst uid.
  rewrite forallb_forall in Hok. specialize (Hok m Hin).
  now apply andb_true_iff in Hok as [Hok _].
Qed.

(** No membership row points at an id that no conversation has. *)
Lemma memberships_of_fresh (d : Store) (cid : string) :
  membership_keys_ok d = true ->
  prisma.conversation_exists d cid = false ->
  List.filter (fun m => String.eqb (Membership.conversationId m) cid) (memberships d)
  = []
  /\ forall uid, prisma.has_member d cid uid = false.
Proof.
  unfold membership_keys_ok, prisma.has_member. intros Hok Hfresh.
  rewrite forallb_forall in Hok.
  assert (Hne : forall m, In m (memberships d) ->
                          String.eqb (Membership.conversationId m) cid = false).
  { intros m Hin. specialize (Hok m Hin).
    apply andb_true_iff in Hok as [_ Hc].
    destruct (String.eqb_spec (Membership.conversationId m) cid) as [E|E];
      [congruence | reflexivity]. }
  clear Hok. split.
  - induction (memberships d) as [|m ms IH]; simpl; [reflexivity|].
    rewrite (Hne m) by now left. apply IH. intros m' Hm'. apply Hne. now right.
  - intros uid. apply not_true_is_false. intros H.
    apply existsb_exists in H as (m & Hin & Hm).
    apply andb_true_iff in Hm as [Hc _]. rewrite (Hne m Hin) in Hc. discriminate.
Qed.

Section CreatedDirect.

Variables (g : Gen) (title : option string) (u1 u2 : string) (d : Store).
Hypothesis keys_ok : membership_keys_ok d = true.
Hypothesis fresh : prisma.conversation_exists d (new_id g 0) = false.

Lemma memberships_of_created :
  prisma.memberships_of (store_with_direct g title u1 u2 d) (new_id g 0) = new_memberships g u1 u2.
Proof.
  unfold prisma.memberships_of, store_with_direct. simpl memberships.
  rewrite List.filter_app.
  destruct (memberships_of_fresh d (new_id g 0) keys_ok fresh) as [-> _].
  simpl. rewrite String.eqb_refl. reflexivity.
Qed.

Lemma has_member_created (cid uid : string) :
  cid <> new_id g 0 ->
  prisma.has_member (store_with_direct g title u1 u2 d) cid uid = prisma.has_member d cid uid.
Proof.
  intros Hne. unfold prisma.has_member, store_with_direct. simpl memberships.
  rewrite existsb_app. simpl.
  destruct (String.eqb_spec (new_id g 0) cid) as [E|E]; [congruence|].
  simpl. now rewrite orb_false_r.
Qed.

Lemma has_member_new (uid : string) :
  prisma.has_member (store_with_direct g title u1 u2 d) (new_id g 0) uid
  = String.eqb u1 uid || String.eqb u2 uid.
Proof.
  unfold prisma.has_member, store_with_direct. simpl memberships.
  rewrite existsb_app.
  destruct (memberships_of_fresh d (new_id g 0) keys_ok fresh) as [_ Hnone].
  unfold prisma.has_member in Hnone. rewrite Hnone. simpl.
  rewrite String.eqb_refl. simpl. now rewrite orb_false_r.
Qed.

Lemma direct_between_created (a b : string) (c : Conversation.t) :
  In c (conversations d) ->
  prisma.direct_between (store_with_direct g title u1 u2 d) a b c = prisma.direct_between d a b c.
Proof.
  intros Hin. unfold prisma.direct_between.
  assert (Hne : Conversation.id c <> new_id g 0).
  { intros E. apply conversation_exists_In in Hin. congruence. }
  now rewrite !has_member_created.
Qed.

(** Once created, the new conversation is what the lookup finds, when it
    found nothing before. *)
Lemma direct_candidate_created :
  prisma.direct_candidate d u1 u2 = None ->
  prisma.direct_candidate (store_with_direct g title u1 u2 d) u1 u2
  = Some (new_conversation g title, new_memberships g u1 u2).
Proof.
  unfold prisma.direct_candidate at 1.
  destruct (List.find _ (conversations d)) eqn:Hfind; [discriminate|]. intros _.
  unfold prisma.direct_candidate.
  assert (Hf : List.find (prisma.direct_between (store_with_direct g title u1 u2 d) u1 u2) (conversations (store_with_direct g title u1 u2 d))
               = Some (new_conversation g title)).
  { simpl conversations. apply find_snoc_first.
    - rewrite <- Hfind. apply find_pointwise.
      intros c Hc. now apply direct_between_created.
    - unfold prisma.direct_between. simpl Conversation.isGroup.
      simpl Conversation.id.
      rewrite !has_member_new, !String.eqb_refl. simpl.
      now rewrite orb_true_r. }
  rewrite Hf. simpl Conversation.id. now rewrite memberships_of_created.
Qed.

End CreatedDirect.

(** Creating a direct chat between two users keeps the foreign keys of
    [Membership] satisfied, so the assumption made on the store carries
    over from one request to the next. *)
Lemma membership_keys_ok_created (g : Gen) (title : option string)
      (u1 u2 : string) (d : Store) :
  membership_keys_ok d = true ->
  prisma.user_exists d u1 = true ->
  prisma.user_exists d u2 = true ->
  membership_keys_ok (store_with_direct g title u1 u2 d) = true.
Proof.
  intros Hok Hu1 Hu2. unfold membership_keys_ok, store_with_direct.
  simpl memberships. rewrite forallb_app. apply andb_true_iff. split.
  - unfold membership_keys_ok in Hok. rewrite forallb_forall in Hok.
    apply forallb_forall. intros m Hm. specialize (Hok m Hm).
    apply andb_true_iff in Hok as [Hu Hc]. apply andb_true_iff.
    split; [exact Hu|].
    unfold prisma.conversation_exists in *. simpl conversations.
    rewrite existsb_app, Hc. reflexivity.
  - unfold prisma.user_exists, prisma.conversation_exists in *. simpl.
    rewrite Hu1, Hu2, !existsb_app. simpl.
    rewrite String.eqb_refl, !orb_true_r. reflexivity.
Qed.

(** *** The handler on a direct-chat request *)

Lemma direct_request_pair (uid other : string) :
  uid <> other -> JS.array_from_set (uid :: [other]) = [uid; other].
Proof.
  intros Hne. unfold JS.array_from_set. simpl.
  destruct (String.eqb_spec uid other); [contradiction | reflexivity].
Qed.

Lemma post_conversations_direct_run (g : Gen) (s : Server) (uid : string)
      (memberIds : list string) (title : option string) (a b : string) :
  JS.array_from_set (uid :: memberIds) = [a; b] ->
  post_conversations g (Some uid) memberIds false title s =
    match prisma.direct_candidate (db s) a b with
    | Some (c, ms) =>
        if length ms =? 2
        then (Done (json (BConversation c ms)), logged s [ConversationFindFirst])
        else create_outcome g title a b s
    | None => create_outcome g title a b s
    end.
Proof.
  intros Hpair.
  unfold post_conversations, authMiddleware, try_catch. rewrite Hpair.
  simpl negb. cbv iota.
  unfold bind at 1. unfold prisma.conversation_findFirst, bind, log_query, get_db, ret.
  simpl.
  assert (Hcreate :
    forall s1, db s1 = db s -> rooms s1 = rooms s -> outbox s1 = outbox s ->
               queries s1 = queries s ++ [ConversationFindFirst] ->
    match
      (let (r, s') := prisma.conversation_create g false title [a; b] s1 in
       match r with
       | Done convo => (Done (json (BConversation (fst convo) (snd convo))), s')
       | Threw e => (Threw e, s')
       end)
    with
    | (Done r, s') => (Done r, s')
    | (Threw _, s') => (Done (status_json 500 (BError "server_error")), s')
    end = create_outcome g title a b s).
  { intros s1 Hdb Hrooms Hout Hq.
    unfold prisma.conversation_create, bind, log_query, get_db, put_db, ret, throw,
      create_outcome, logged.
    simpl. rewrite Hdb, Hrooms, Hout, Hq, <- app_assoc. simpl.
    rewrite andb_true_r.
    destruct (prisma.user_exists (db s) a && prisma.user_exists (db s) b);
      reflexivity. }
  destruct (prisma.direct_candidate (db s) a b) as [[c ms]|].
  - destruct (length ms =? 2); [reflexivity|].
    apply Hcreate; reflexivity.
  - apply Hcreate; reflexivity.
Qed.

(** C1. Direct-chat get-or-create.  Take a request whose member set is the
    pair {u1, u2}, made on a store that honours the membership foreign
    keys, and a second request for the same unordered pair (by either
    user) made right after it.
    - If the lookup finds a non-group conversation holding memberships for
      both users and it has exactly 2 memberships, the first request is
      answered with that conversation and so is the second, and neither
      writes a row: no new conversation, no new membership.
    - If the conversation found does not have exactly 2 memberships, it is
      not reused: a new conversation, with a different id, and its two
      memberships are created.
    - If none is found and both users exist, the first request creates the
      conversation and the second is answered with that same conversation
      and writes nothing. *)
Theorem direct_chat_get_or_create
        (g g' : Gen) (s : Server) (uid uid' : string)
        (memberIds memberIds' : list string) (title title' : option string)
        (u1 u2 : string) :
  membership_keys_ok (db s) = true ->
  prisma.conversation_exists (db s) (new_id g 0) = false ->
  JS.array_from_set (uid :: memberIds) = [u1; u2] ->
  JS.array_from_set (uid' :: memberIds') = [u1; u2]
  \/ JS.array_from_set (uid' :: memberIds') = [u2; u1] ->
  let first := post_conversations g (Some uid) memberIds false title s in
  let second :=
    post_conversations g' (Some uid') memberIds' false title' (snd first) in
  match prisma.direct_candidate (db s) u1 u2 with
  | Some (c, ms) =>
      if length ms =? 2
      then reused s c ms first /\ reused s c ms second
      else created g title u1 u2 s first /\ Conversation.id c <> new_id g 0
  | None =>
      prisma.user_exists (db s) u1 = true ->
      prisma.user_exists (db s) u2 = true ->
      created g title u1 u2 s first
      /\ reused (snd first) (new_conversation g title) (new_memberships g u1 u2)
                second
  end.
Proof.
  intros Hok Hfresh Hpair Hpair' first second.
  assert (Hsecond : forall s1,
    second = post_conversations g' (Some uid') memberIds' false title' s1 ->
    forall c ms, prisma.direct_candidate (db s1) u1 u2 = Some (c, ms) ->
                 (length ms =? 2) = true ->
                 reused s1 c ms second).
  { intros s1 -> c ms Hcand Hlen.
    destruct Hpair' as [Hp|Hp];
      rewrite (post_conversations_direct_run _ _ _ _ _ _ _ Hp);
      [|rewrite <- direct_candidate_sym];
      rewrite Hcand, Hlen; split; reflexivity. }
  pose proof (post_conversations_direct_run g s uid memberIds title u1 u2 Hpair)
    as Hfirst.
  fold first in Hfirst.
  destruct (prisma.direct_candidate (db s) u1 u2) as [[c ms]|] eqn:Hcand.
  - destruct (length ms =? 2) eqn:Hlen.
    + split; [rewrite Hfirst; split; reflexivity|].
      destruct (Hsecond (snd first) eq_refl c ms) as [Hres Hdb];
        [rewrite Hfirst; exact Hcand | exact Hlen |].
      split; [exact Hres|]. rewrite Hdb, Hfirst. reflexivity.
    + apply direct_candidate_Some in Hcand as (Hin & _ & Hm1 & Hm2 & _).
      unfold create_outcome in Hfirst.
      rewrite (has_member_user_exists _ _ _ Hok Hm1),
              (has_member_user_exists _ _ _ Hok Hm2) in Hfirst.
      simpl andb in Hfirst. cbv iota in Hfirst.
      rewrite memberships_of_created in Hfirst by assumption.
      split; [rewrite Hfirst; split; reflexivity|].
      intros E. apply conversation_exists_In in Hin. congruence.
  - intros Hu1 Hu2. unfold create_outcome in Hfirst.
    rewrite Hu1, Hu2 in Hfirst. simpl andb in Hfirst. cbv iota in Hfirst.
    rewrite memberships_of_created in Hfirst by assumption.
    split; [rewrite Hfirst; split; reflexivity|].
    apply (Hsecond (snd first) eq_refl); [|reflexivity].
    rewrite Hfirst. simpl db. now apply direct_candidate_created.
Qed.

Lemma direct_chat_get_or_create_witness :
  (membership_keys_ok (db Scenario.server) = true
   /\ prisma.conversation_exists (db Scenario.server) (new_id Scenario.gen 0) = false
   /\ JS.array_from_set ("A" :: ["B"]) = ["A"; "B"]
   /\ JS.array_from_set ("B" :: ["A"; "B"]) = ["B"; "A"])
  /\ (let first := post_conversations Scenario.gen (Some "A") ["B"] false None
                                      Scenario.server in
      let second := post_conversations Scenario.gen (Some "B") ["A"; "B"] false
                                       (Some "again") (snd first) in
      reused Scenario.server Scenario.convC [Scenario.memA; Scenario.memB] first
      /\ reused Scenario.server Scenario.convC [Scenario.memA; Scenario.memB] second).
Proof.
  split; [repeat split; reflexivity|].
  apply (direct_chat_get_or_create
           Scenario.gen Scenario.gen Scenario.server "A" "B" ["B"] ["A"; "B"]
           None (Some "again") "A" "B");
    [reflexivity | reflexivity | reflexivity | right; reflexivity].
Defined.

(** ** History *)

#[local] Instance created_desc_trans : Transitive prisma.created_desc.
Proof. intros x y z. unfold prisma.created_desc. lia. Qed.

#[local] Instance created_desc_total : Total prisma.created_desc.
Proof. intros x y. unfold prisma.created_desc. lia. Qed.









(** ** The scenario, run *)

(** Alice sends "hi" to C: the row is stored after the two that were there
    and one [MessageCreated] is emitted. *)
Example alice_sends_hi :
  let r := on_send_message Scenario.gen Scenario.sockA
                           (Some "C") (Some "text") (Some "hi") (Some "")
                           Scenario.server in
  fst r = Done tt
  /\ messages (db (snd r))
     = [Scenario.hi; Scenario.pic;
        Message.mk "n0" "C" "A" "text" (Some "hi") None 200 (JArray []) (JArray [])]
  /\ length (outbox (snd r)) = 1.
Proof. repeat split. Qed.

(** Bob acknowledges delivery of m1, then again: [deliveredTo] is ["B"]
    both times. *)
Example bob_acknowledges_twice :
  let s1 := snd (on_ack_delivered Scenario.sockB (Some "C") (Some "m1")
                                  Scenario.server) in
  let s2 := snd (on_ack_delivered Scenario.sockB (Some "C") (Some "m1") s1) in
  option_map Message.deliveredTo (prisma.find_message (db s1) "m1")
  = Some (JArray ["B"])
  /\ db s2 = db s1.
Proof. split; reflexivity. Qed.

(** Alice opens a chat with Carol: nothing to reuse, a conversation and
    two memberships are created; asked again, the server returns it. *)
Example alice_opens_chat_with_carol :
  let first := post_conversations Scenario.gen (Some "A") ["K"] false None
                                  Scenario.server in
  let second := post_conversations Scenario.gen (Some "K") ["A"] false None
                                   (snd first) in
  created Scenario.gen None "A" "K" Scenario.server first
  /\ fst second = fst first
  /\ db (snd second) = db (snd first).
Proof. repeat split. Qed.

(** A search for "ALI" finds Alice by her display name; a search for
    "x.com" finds Alice and Bob by their email. *)
Example search_examples :
  fst (users_search JS.toLowerCase (Some "B") (Some "ALI") Scenario.server)
  = Done (json (BUsers [user_view Scenario.alice]))
  /\ fst (users_search JS.toLowerCase (Some "B") (Some "x.com") Scenario.server)
     = Done (json (BUsers [user_view Scenario.alice; user_view Scenario.bob])).
Proof. split; reflexivity. Qed.

(** The page before m2 holds m1 only; the unbounded page lists both,
    oldest first. *)
Example history_examples :
  fst (get_messages (Some "A") (Some "C") (Some "m2") None Scenario.server)
  = Done (json (BMessages [Scenario.hi]))
  /\ fst (get_messages (Some "A") (Some "C") None None Scenario.server)
     = Done (json (BMessages [Scenario.hi; Scenario.pic]))
  /\ fst (get_messages (Some "A") (Some "C") None (Some (JS.Int 1)) Scenario.server)
     = Done (json (BMessages [Scenario.pic]))
  /\ fst (get_messages (Some "A") (Some "C") None (Some JS.NotInt) Scenario.server)
     = Threw ValidationFailed.
Proof. repeat split. Qed.

(** * More of the server *)

(** ** Creating conversations *)

Lemma created_memberships_users (g : Gen) (uids : list string) :
  map Membership.userId (created_memberships g uids) = uids
  /\ Forall (fun m => Membership.conversationId m = new_id g 0)
            (created_memberships g uids).
Proof.
  unfold created_memberships.
  set (f := fun i uid => Membership.mk (new_id g (S i)) uid (new_id g 0)
                                       "member" (now g) None).
  assert (Hgen : forall (l : list string) (k : nat),
             map Membership.userId (imap (fun i => f (k + i)) l) = l
             /\ Forall (fun m => Membership.conversationId m = new_id g 0)
                       (imap (fun i => f (k + i)) l)).
  { induction l as [|x l IH]; intros k; simpl.
    - split; constructor.
    - destruct (IH (S k)) as [IH1 IH2].
      assert (Hext : imap ((fun i => f (k + i)) ∘ S) l
                     = imap (fun i => f (S k + i)) l).
      { apply imap_ext. intros i y _. simpl. now rewrite Nat.add_succ_r. }
      rewrite Hext. split.
      + now rewrite IH1.
      + constructor; [reflexivity | exact IH2]. }
  exact (Hgen uids 0).
Qed.

Lemma conversation_create_run (g : Gen) (isGroup : bool) (title : option string)
      (uids : list string) (s : Server) :
  prisma.conversation_create g isGroup title uids s =
    if forallb (prisma.user_exists (db s)) uids
    then (Done (created_conversation g isGroup title,
                prisma.memberships_of
                  (store_with_conversation (created_conversation g isGroup title)
                                           (created_memberships g uids) (db s))
                  (new_id g 0)),
          mkServer (store_with_conversation (created_conversation g isGroup title)
                                            (created_memberships g uids) (db s))
                   (rooms s) (queries s ++ [ConversationCreate]) (outbox s))
    else (Threw ForeignKeyFailed, logged s [ConversationCreate]).
Proof.
  unfold prisma.conversation_create, bind, log_query, get_db, put_db, ret, throw.
  simpl. destruct (forallb _ uids); reflexivity.
Qed.

Lemma post_conversations_group_run (g : Gen) (s : Server) (uid : string)
      (memberIds : list string) (title : option string) :
  post_conversations g (Some uid) memberIds true title s =
    if forallb (prisma.user_exists (db s)) (JS.array_from_set (uid :: memberIds))
    then (Done (json (BConversation
                        (created_conversation g true title)
                        (prisma.memberships_of
                           (store_with_conversation
                              (created_conversation g true title)
                              (created_memberships
                                 g (JS.array_from_set (uid :: memberIds)))
                              (db s))
                           (new_id g 0)))),
          mkServer (store_with_conversation
                      (created_conversation g true title)
                      (created_memberships g (JS.array_from_set (uid :: memberIds)))
                      (db s))
                   (rooms s) (queries s ++ [ConversationCreate]) (outbox s))
    else (Done server_error, logged s [ConversationCreate]).
Proof.
  unfold post_conversations, authMiddleware, try_catch. cbv zeta.
  change (negb true) with false. cbv iota.
  unfold bind. rewrite conversation_create_run.
  destruct (forallb _ _); reflexivity.
Qed.

(** *** A store with one more conversation *)

Lemma rows_of_other_conversation (ms : list Membership.t) (cid0 cid : string) :
  Forall (fun m => Membership.conversationId m = cid0) ms ->
  cid <> cid0 ->
  List.filter (fun m => String.eqb (Membership.conversationId m) cid) ms = []
  /\ forall uid, existsb (fun m => String.eqb (Membership.conversationId m) cid
                                   && String.eqb (Membership.userId m) uid) ms
                 = false.
Proof.
  intros Hall Hne. induction Hall as [|m l Hm Hl IH]; simpl.
  - split; [reflexivity | intros; reflexivity].
  - destruct IH as [IH1 IH2].
    destruct (String.eqb_spec (Membership.conversationId m) cid) as [E|E];
      [congruence|].
    split; [exact IH1 | intros uid; simpl; apply IH2].
Qed.

Lemma rows_of_conversation (ms : list Membership.t) (cid0 : string) :
  Forall (fun m => Membership.conversationId m = cid0) ms ->
  List.filter (fun m => String.eqb (Membership.conversationId m) cid0) ms = ms
  /\ forall uid, existsb (fun m => String.eqb (Membership.conversationId m) cid0
                                   && String.eqb (Membership.userId m) uid) ms
                 = existsb (String.eqb uid) (map Membership.userId ms).
Proof.
  intros Hall. induction Hall as [|m l Hm Hl IH]; simpl.
  - split; [reflexivity | intros; reflexivity].
  - destruct IH as [IH1 IH2]. rewrite Hm, String.eqb_refl. split.
    + now rewrite IH1.
    + intros uid. simpl. now rewrite IH2, (String.eqb_sym uid).
Qed.

Section NewConversation.

Variables (c : Conversation.t) (ms : list Membership.t) (d : Store).
Hypothesis keys_ok : membership_keys_ok d = true.
Hypothesis fresh : prisma.conversation_exists d (Conversation.id c) = false.
Hypothesis ms_conversation :
  Forall (fun m => Membership.conversationId m = Conversation.id c) ms.

Lemma memberships_of_with_conversation (cid : string) :
  cid <> Conversation.id c ->
  prisma.memberships_of (store_with_conversation c ms d) cid
  = prisma.memberships_of d cid.
Proof.
  intros Hne. unfold prisma.memberships_of, store_with_conversation.
  simpl memberships. rewrite List.filter_app.
  destruct (rows_of_other_conversation ms _ cid ms_conversation Hne) as [-> _].
  apply app_nil_r.
Qed.

Lemma has_member_with_conversation (cid uid : string) :
  cid <> Conversation.id c ->
  prisma.has_member (store_with_conversation c ms d) cid uid
  = prisma.has_member d cid uid.
Proof.
  intros Hne. unfold prisma.has_member, store_with_conversation.
  simpl memberships. rewrite existsb_app.
  destruct (rows_of_other_conversation ms _ cid ms_conversation Hne) as [_ H].
  rewrite H. apply orb_false_r.
Qed.

Lemma old_conversation_id (x : Conversation.t) :
  In x (conversations d) -> Conversation.id x <> Conversation.id c.
Proof.
  intros Hin E. apply conversation_exists_In in Hin. congruence.
Qed.

Lemma direct_between_with_conversation (a b : string) (x : Conversation.t) :
  In x (conversations d) ->
  prisma.direct_between (store_with_conversation c ms d) a b x
  = prisma.direct_between d a b x.
Proof.
  intros Hin. unfold prisma.direct_between.
  now rewrite !has_member_with_conversation by now apply old_conversation_id.
Qed.

Lemma memberships_of_new_conversation :
  prisma.memberships_of (store_with_conversation c ms d) (Conversation.id c) = ms.
Proof.
  unfold prisma.memberships_of, store_with_conversation. simpl memberships.
  rewrite List.filter_app.
  destruct (memberships_of_fresh d _ keys_ok fresh) as [-> _]. simpl.
  apply (rows_of_conversation ms _ ms_conversation).
Qed.

Lemma has_member_new_conversation (uid : string) :
  prisma.has_member (store_with_conversation c ms d) (Conversation.id c) uid
  = existsb (String.eqb uid) (map Membership.userId ms).
Proof.
  unfold prisma.has_member, store_with_conversation. simpl memberships.
  rewrite existsb_app.
  destruct (memberships_of_fresh d _ keys_ok fresh) as [_ Hnone].
  unfold prisma.has_member in Hnone. rewrite Hnone. simpl.
  apply (rows_of_conversation ms _ ms_conversation).
Qed.

Lemma membership_keys_ok_with_conversation :
  forallb (prisma.user_exists d) (map Membership.userId ms) = true ->
  membership_keys_ok (store_with_conversation c ms d) = true.
Proof.
  intros Husers. unfold membership_keys_ok, store_with_conversation.
  simpl memberships. rewrite forallb_app. apply andb_true_iff. split.
  - pose proof keys_ok as Hok. unfold membership_keys_ok in Hok.
    rewrite forallb_forall in Hok.
    apply forallb_forall. intros m Hm. specialize (Hok m Hm).
    apply andb_true_iff in Hok as [Hu Hc]. apply andb_true_iff.
    split; [exact Hu|].
    unfold prisma.conversation_exists in *. simpl conversations.
    rewrite existsb_app, Hc. reflexivity.
  - rewrite forallb_forall in Husers. apply forallb_forall. intros m Hm.
    apply andb_true_iff. split.
    + apply Husers. apply in_map_iff. now exists m.
    + rewrite Forall_forall in ms_conversation.
      rewrite <- list_elem_of_In in Hm.
      rewrite (ms_conversation m Hm).
      unfold prisma.conversation_exists. simpl conversations.
      rewrite existsb_app. simpl. rewrite String.eqb_refl.
      now rewrite orb_true_r.
Qed.

Lemma conversation_ids_with_conversation :
  NoDup (map Conversation.id (conversations d)) ->
  NoDup (map Conversation.id (conversations (store_with_conversation c ms d))).
Proof.
  intros Hnd. simpl conversations. rewrite map_app. simpl.
  apply NoDup_app. split; [exact Hnd|]. split; [|apply NoDup_singleton].
  intros x Hx Hx'. rewrite list_elem_of_singleton in Hx'. subst x.
  rewrite list_elem_of_In, in_map_iff in Hx. destruct Hx as (y & Hy & Hin).
  now apply old_conversation_id in Hin.
Qed.

Lemma direct_ok_with_conversation :
  direct_ok d ->
  (Conversation.isGroup c = false -> length ms = 2) ->
  direct_ok (store_with_conversation c ms d).
Proof.
  intros Hok Hnew x Hin Hg. simpl conversations in Hin.
  apply in_app_or in Hin as [Hin|[<-|[]]].
  - rewrite memberships_of_with_conversation by now apply old_conversation_id.
    now apply Hok.
  - rewrite memberships_of_new_conversation. now apply Hnew.
Qed.

Lemma one_direct_per_pair_with_conversation :
  one_direct_per_pair d ->
  (Conversation.isGroup c = false ->
   exists a b, map Membership.userId ms = [a; b]
               /\ prisma.direct_candidate d a b = None) ->
  one_direct_per_pair (store_with_conversation c ms d).
Proof.
  intros Hone Hnew.
  assert (Hclash : forall u1 u2 x,
             u1 <> u2 -> In x (conversations d) ->
             prisma.direct_between (store_with_conversation c ms d) u1 u2 c = true ->
             prisma.direct_between d u1 u2 x = true -> False).
  { intros u1 u2 x Hne Hx Hc Hd.
    unfold prisma.direct_between in Hc.
    apply andb_true_iff in Hc as [Hc H2]. apply andb_true_iff in Hc as [Hg H1].
    apply negb_true_iff in Hg.
    destruct (Hnew Hg) as (a & b & Hab & Hnone).
    rewrite has_member_new_conversation, Hab in H1, H2. simpl in H1, H2.
    rewrite !orb_false_r in H1, H2.
    assert (Hfalse : forall y, In y (conversations d) ->
                               prisma.direct_between d a b y = false).
    { unfold prisma.direct_candidate in Hnone.
      destruct (List.find _ _) eqn:Hfind; [discriminate|].
      intros y Hy. exact (find_none _ _ Hfind y Hy). }
    apply orb_true_iff in H1, H2.
    destruct H1 as [H1|H1], H2 as [H2|H2];
      apply String.eqb_eq in H1, H2; subst.
    - contradiction.
    - rewrite (Hfalse x Hx) in Hd. discriminate.
    - rewrite direct_between_sym, (Hfalse x Hx) in Hd. discriminate.
    - contradiction. }
  intros u1 u2 c1 c2 Hne H1 H2 Hd1 Hd2. simpl conversations in H1, H2.
  apply in_app_or in H1 as [H1|[<-|[]]];
    apply in_app_or in H2 as [H2|[<-|[]]].
  - rewrite direct_between_with_conversation in Hd1, Hd2 by assumption.
    now apply (Hone u1 u2).
  - rewrite direct_between_with_conversation in Hd1 by assumption.
    exfalso. now apply (Hclash u1 u2 c1).
  - rewrite direct_between_with_conversation in Hd2 by assumption.
    exfalso. now apply (Hclash u1 u2 c2).
  - reflexivity.
Qed.

End NewConversation.

Lemma direct_chat_cardinality_run (g : Gen) (s : Server) (uid : string)
      (memberIds : list string) (title : option string) :
  size (member_set uid memberIds) <> 2 ->
  post_conversations g (Some uid) memberIds false title s
  = (Done bad_cardinality, s).
Proof.
  intros Hsize.
  destruct (array_from_set_spec uid memberIds) as (_ & _ & Hlen).
  rewrite <- Hlen in Hsize.
  unfold post_conversations, authMiddleware, try_catch. cbv zeta.
  change (negb false) with true. cbv iota.
  destruct (JS.array_from_set (uid :: memberIds)) as [|a [|b [|c l]]];
    try reflexivity.
  simpl in Hsize. contradiction.
Qed.

(** *** Every way [POST /conversations] can end *)

Lemma store_with_direct_is_with_conversation (g : Gen) (title : option string)
      (a b : string) (d : Store) :
  store_with_direct g title a b d
  = store_with_conversation (created_conversation g false title)
                            (created_memberships g [a; b]) d.
Proof. reflexivity. Qed.

Lemma post_conversations_cases (g : Gen) (s : Server) (uid : string)
      (memberIds : list string) (isGroup : bool) (title : option string) :
  let r := post_conversations g (Some uid) memberIds isGroup title s in
  let U := JS.array_from_set (uid :: memberIds) in
  (isGroup = false /\ length U <> 2 /\ r = (Done bad_cardinality, s))
  \/ (isGroup = false /\
      exists a b c ms,
        U = [a; b] /\ prisma.direct_candidate (db s) a b = Some (c, ms)
        /\ length ms = 2
        /\ r = (Done (json (BConversation c ms)), logged s [ConversationFindFirst]))
  \/ (forallb (prisma.user_exists (db s)) U = false
      /\ (isGroup = true
          \/ exists a b, U = [a; b]
                         /\ forall c ms, prisma.direct_candidate (db s) a b
                                         = Some (c, ms) -> length ms <> 2)
      /\ fst r = Done server_error
      /\ db (snd r) = db s /\ rooms (snd r) = rooms s /\ outbox (snd r) = outbox s)
  \/ (forallb (prisma.user_exists (db s)) U = true
      /\ (isGroup = true
          \/ exists a b, U = [a; b]
                         /\ forall c ms, prisma.direct_candidate (db s) a b
                                         = Some (c, ms) -> length ms <> 2)
      /\ fst r = Done (json (BConversation
                               (created_conversation g isGroup title)
                               (prisma.memberships_of
                                  (store_with_conversation
                                     (created_conversation g isGroup title)
                                     (created_memberships g U) (db s))
                                  (new_id g 0))))
      /\ db (snd r) = store_with_conversation (created_conversation g isGroup title)
                                              (created_memberships g U) (db s)
      /\ rooms (snd r) = rooms s /\ outbox (snd r) = outbox s).
Proof.
  intros r U. destruct isGroup.
  - subst r. rewrite post_conversations_group_run. fold U.
    destruct (forallb _ U) eqn:Husers.
    + right. right. right. split; [reflexivity|]. split; [now left|].
      repeat split.
    + right. right. left. split; [reflexivity|]. split; [now left|].
      repeat split.
  - destruct (Nat.eq_dec (length U) 2) as [Hlen|Hlen].
    + destruct U as [|a [|b [|x U']]] eqn:HU; try discriminate Hlen.
      pose proof (post_conversations_direct_run g s uid memberIds title a b HU)
        as Hrun.
      fold r in Hrun.
      assert (Hcreate :
        r = create_outcome g title a b s ->
        (forall c ms, prisma.direct_candidate (db s) a b = Some (c, ms) ->
                      length ms <> 2) ->
        (forallb (prisma.user_exists (db s)) [a; b] = false
         /\ (false = true
             \/ exists a0 b0, [a; b] = [a0; b0]
                  /\ forall c ms, prisma.direct_candidate (db s) a0 b0
                                  = Some (c, ms) -> length ms <> 2)
         /\ fst r = Done server_error
         /\ db (snd r) = db s /\ rooms (snd r) = rooms s
         /\ outbox (snd r) = outbox s)
        \/ (forallb (prisma.user_exists (db s)) [a; b] = true
            /\ (false = true
                \/ exists a0 b0, [a; b] = [a0; b0]
                     /\ forall c ms, prisma.direct_candidate (db s) a0 b0
                                     = Some (c, ms) -> length ms <> 2)
            /\ fst r = Done (json (BConversation
                                     (created_conversation g false title)
                                     (prisma.memberships_of
                                        (store_with_conversation
                                           (created_conversation g false title)
                                           (created_memberships g [a; b]) (db s))
                                        (new_id g 0))))
            /\ db (snd r) = store_with_conversation
                              (created_conversation g false title)
                              (created_memberships g [a; b]) (db s)
            /\ rooms (snd r) = rooms s /\ outbox (snd r) = outbox s)).
      { intros -> Hanom. unfold create_outcome. simpl forallb.
        rewrite andb_true_r.
        destruct (prisma.user_exists (db s) a && prisma.user_exists (db s) b).
        - right. split; [reflexivity|]. split; [right; eauto|]. repeat split.
        - left. split; [reflexivity|]. split; [right; eauto|]. repeat split. }
      destruct (prisma.direct_candidate (db s) a b) as [[c ms]|] eqn:Hcand.
      * destruct (length ms =? 2) eqn:Hms.
        -- right. left. split; [reflexivity|].
           exists a, b, c, ms. apply Nat.eqb_eq in Hms. repeat split; assumption.
        -- right. right. apply Hcreate; [exact Hrun|].
           intros c' ms' [= <- <-]. now apply Nat.eqb_neq.
      * right. right. apply Hcreate; [exact Hrun|]. intros c' ms' [=].
    + left. split; [reflexivity|]. split; [exact Hlen|].
      subst r. apply direct_chat_cardinality_run.
      destruct (array_from_set_spec uid memberIds) as (_ & _ & Hsize).
      fold U in Hsize. congruence.
Qed.

Lemma member_set_elem_of (uid : string) (memberIds : list string) (x : string) :
  In x (JS.array_from_set (uid :: memberIds)) <-> x = uid \/ In x memberIds.
Proof.
  unfold JS.array_from_set.
  rewrite <- !list_elem_of_In, fold_set_add_elem_of, elem_of_nil, elem_of_cons.
  tauto.
Qed.

Lemma members_exist_forallb (d : Store) (uid : string) (memberIds : list string) :
  forallb (prisma.user_exists d) (JS.array_from_set (uid :: memberIds)) = true
  <-> forall x, x = uid \/ In x memberIds -> prisma.user_exists d x = true.
Proof.
  rewrite forallb_forall. split; intros H x Hx; apply H;
    now apply member_set_elem_of.
Qed.

(** X1. A group request ([isGroup] true) whose members all have a user row
    always creates a conversation, whatever conversations exist already: no
    lookup is made, one group conversation row is added, and one
    membership row is added for each member of {requester} ∪ memberIds,
    the requester included, each member once. *)
Theorem group_chat_is_always_created
        (g : Gen) (s : Server) (uid : string) (memberIds : list string)
        (title : option string) :
  (forall x, x = uid \/ In x memberIds -> prisma.user_exists (db s) x = true) ->
  group_created g s uid memberIds title
                (post_conversations g (Some uid) memberIds true title s).
Proof.
  intros Hexist. apply members_exist_forallb in Hexist.
  rewrite post_conversations_group_run, Hexist.
  destruct (created_memberships_users g (JS.array_from_set (uid :: memberIds)))
    as [Husers Hconv].
  destruct (array_from_set_spec uid memberIds) as (Hnd & Hset & _).
  unfold group_created. eexists _, _. simpl.
  split; [reflexivity|]. split; [reflexivity|]. split; [reflexivity|].
  rewrite Husers. repeat split; assumption.
Qed.

Lemma group_chat_is_always_created_witness :
  (forall x, x = "A" \/ In x ["B"; "K"; "B"] ->
             prisma.user_exists (db Scenario.server) x = true)
  /\ group_created Scenario.gen Scenario.server "A" ["B"; "K"; "B"] (Some "trio")
       (post_conversations Scenario.gen (Some "A") ["B"; "K"; "B"] true
                           (Some "trio") Scenario.server).
Proof.
  assert (H : forall x, x = "A" \/ In x ["B"; "K"; "B"] ->
                        prisma.user_exists (db Scenario.server) x = true).
  { intros x [->|[<-|[<-|[<-|[]]]]]; reflexivity. }
  split; [exact H|]. apply group_chat_is_always_created. exact H.
Defined.

(** X2. On a store that honours the membership foreign keys, a request
    that names a member without a user row, the requester included,
    creates nothing: it is answered 400 or 500 and the database, the rooms
    and the outbox are as before; no conversation is left without its
    memberships. *)
Theorem conversation_with_unknown_member_is_not_created
        (g : Gen) (s : Server) (uid : string) (memberIds : list string)
        (isGroup : bool) (title : option string) (x : string) :
  membership_keys_ok (db s) = true ->
  x = uid \/ In x memberIds ->
  prisma.user_exists (db s) x = false ->
  refused s (post_conversations g (Some uid) memberIds isGroup title s).
Proof.
  intros Hok Hx Hnone.
  assert (Hmissing : forallb (prisma.user_exists (db s))
                             (JS.array_from_set (uid :: memberIds)) = false).
  { apply not_true_is_false. intros H.
    rewrite members_exist_forallb in H. rewrite (H x Hx) in Hnone. discriminate. }
  unfold refused.
  destruct (post_conversations_cases g s uid memberIds isGroup title)
    as [(_ & _ & Hr) | [(_ & a & b & c & ms & HU & Hcand & _) |
        [(_ & _ & Hr & Hdb & Hrooms & Hout) | (Hall & _)]]].
  - rewrite Hr. repeat split. now left.
  - exfalso. apply direct_candidate_Some in Hcand as (_ & _ & Ha & Hb & _).
    apply (has_member_user_exists _ _ _ Hok) in Ha, Hb.
    rewrite HU in Hmissing. simpl in Hmissing. rewrite Ha, Hb in Hmissing.
    discriminate.
  - repeat split; try assumption. now right.
  - congruence.
Qed.

Lemma conversation_with_unknown_member_is_not_created_witness :
  membership_keys_ok (db Scenario.server) = true
  /\ ("Z" = "A" \/ In "Z" ["B"; "Z"])
  /\ prisma.user_exists (db Scenario.server) "Z" = false
  /\ refused Scenario.server
             (post_conversations Scenario.gen (Some "A") ["B"; "Z"] true None
                                 Scenario.server).
Proof.
  split; [reflexivity|]. split; [right; right; left; reflexivity|].
  split; [reflexivity|].
  apply (conversation_with_unknown_member_is_not_created
           Scenario.gen Scenario.server "A" ["B"; "Z"] true None "Z");
    [reflexivity | right; right; left; reflexivity | reflexivity].
Defined.

Lemma created_memberships_length (g : Gen) (uids : list string) :
  length (created_memberships g uids) = length uids.
Proof.
  destruct (created_memberships_users g uids) as [H _].
  rewrite <- H at 2. now rewrite length_map.
Qed.

(** Under the invariant, what the lookup finds is never anomalous. *)
Lemma direct_candidate_has_two (d : Store) (a b : string)
      (c : Conversation.t) (ms : list Membership.t) :
  direct_ok d ->
  prisma.direct_candidate d a b = Some (c, ms) ->
  length ms = 2.
Proof.
  intros Hok Hcand.
  apply direct_candidate_Some in Hcand as (Hin & Hg & _ & _ & ->).
  now apply Hok.
Qed.

(** X3. [POST /conversations] keeps the database consistent.  If, before
    the request, every membership names an existing user and an existing
    conversation, conversation ids are distinct, every non-group
    conversation has exactly two memberships and no two users share two
    non-group conversations, then the same holds after the request,
    whatever it asks for and however it is answered (the generated
    conversation id being unused). *)
Theorem conversation_requests_keep_the_store_consistent
        (g : Gen) (s : Server) (req_user : option string)
        (memberIds : list string) (isGroup : bool) (title : option string) :
  store_inv (db s) ->
  prisma.conversation_exists (db s) (new_id g 0) = false ->
  store_inv (db (snd (post_conversations g req_user memberIds isGroup title s))).
Proof.
  intros Hinv Hfresh. destruct req_user as [uid|]; [|exact Hinv].
  destruct Hinv as (Hkeys & Hids & Hdirect & Hone).
  destruct (post_conversations_cases g s uid memberIds isGroup title)
    as [(_ & _ & Hr) | [(_ & a & b & c & ms & _ & _ & _ & Hr) |
        [(_ & _ & _ & Hdb & _) | (Hall & Hwhy & _ & Hdb & _)]]].
  - rewrite Hr. repeat split; assumption.
  - rewrite Hr. repeat split; assumption.
  - rewrite Hdb. repeat split; assumption.
  - rewrite Hdb.
    set (U := JS.array_from_set (uid :: memberIds)) in *.
    destruct (created_memberships_users g U) as [Husers Hconv].
    assert (Hdirect_case :
      Conversation.isGroup (created_conversation g isGroup title) = false ->
      exists a b, U = [a; b] /\ prisma.direct_candidate (db s) a b = None).
    { simpl. intros ->. destruct Hwhy as [Hwhy | (a & b & HU & Hanom)];
        [discriminate|].
      exists a, b. split; [exact HU|].
      destruct (prisma.direct_candidate (db s) a b) as [[c ms]|] eqn:Hcand;
        [|reflexivity].
      exfalso. apply (Hanom c ms eq_refl).
      now apply (direct_candidate_has_two (db s) a b c ms). }
    split; [|split; [|split]].
    + apply membership_keys_ok_with_conversation; try assumption.
      now rewrite Husers.
    + now apply conversation_ids_with_conversation.
    + apply direct_ok_with_conversation; try assumption.
      intros Hg. destruct (Hdirect_case Hg) as (a & b & HU & _).
      now rewrite created_memberships_length, HU.
    + apply one_direct_per_pair_with_conversation; try assumption.
      intros Hg. destruct (Hdirect_case Hg) as (a & b & HU & Hnone).
      exists a, b. split; [now rewrite Husers | exact Hnone].
Qed.

Lemma scenario_store_inv : store_inv Scenario.store.
Proof.
  split; [reflexivity|]. split; [|split].
  - simpl. apply NoDup_singleton.
  - intros c [<-|[]] _. reflexivity.
  - intros u1 u2 c1 c2 _ [<-|[]] [<-|[]] _ _. reflexivity.
Qed.

Lemma conversation_requests_keep_the_store_consistent_witness :
  store_inv (db Scenario.server)
  /\ prisma.conversation_exists (db Scenario.server) (new_id Scenario.gen 0) = false
  /\ store_inv (db (snd (post_conversations Scenario.gen (Some "A") ["K"] false
                                            None Scenario.server))).
Proof.
  split; [exact scenario_store_inv|]. split; [reflexivity|].
  apply (conversation_requests_keep_the_store_consistent
           Scenario.gen Scenario.server (Some "A") ["K"] false None);
    [exact scenario_store_inv | reflexivity].
Defined.

(** ** Messages, end to end *)

Lemma newest_first_head (rows : list Message.t) (x : Message.t) :
  (forall m, In m rows -> (Message.createdAt m < Message.createdAt x)%Z) ->
  exists rest, merge_sort prisma.created_desc (rows ++ [x]) = x :: rest.
Proof.
  intros Hold.
  pose proof (merge_sort_Permutation prisma.created_desc (rows ++ [x])) as Hperm.
  assert (Hsorted : StronglySorted prisma.created_desc
                                   (merge_sort prisma.created_desc (rows ++ [x]))).
  { apply StronglySorted_merge_sort; apply _. }
  destruct (merge_sort prisma.created_desc (rows ++ [x])) as [|h rest].
  - apply Permutation_nil_l in Hperm. now destruct rows.
  - exists rest. f_equal.
    assert (Hh : h ∈ rows ++ [x]) by (rewrite <- Hperm; apply list_elem_of_here).
    assert (Hx : x ∈ h :: rest)
      by (rewrite Hperm, elem_of_app, list_elem_of_singleton; now right).
    rewrite elem_of_app, list_elem_of_singleton in Hh.
    destruct Hh as [Hh|Hh]; [|exact Hh].
    exfalso. rewrite list_elem_of_In in Hh. specialize (Hold h Hh).
    rewrite elem_of_cons in Hx. destruct Hx as [Hx|Hx].
    + subst x. lia.
    + apply StronglySorted_cons in Hsorted as [Hall _].
      rewrite Forall_forall in Hall. specialize (Hall x Hx).
      unfold prisma.created_desc in Hall. lia.
Qed.

(** X4. A message just sent closes the next page of its conversation: when
    every stored message of the conversation is older than the new one,
    the first page [GET /messages] returns for that conversation (no
    [before], a limit that is an integer of at least one, or none) ends
    with the message that was stored. *)
Theorem sent_message_closes_the_next_page
        (g : Gen) (s : Server) (sock : Socket) (uid cid kind : string)
        (text fileUrl : option string) (limit : option JS.number) (z : Z) :
  cid <> "" -> kind <> "" ->
  prisma.conversation_exists (db s) cid = true ->
  prisma.user_exists (db s) (s_uid sock) = true ->
  (forall m, In m (messages (db s)) -> Message.conversationId m = cid ->
             (Message.createdAt m < now g)%Z) ->
  default (JS.Int 50) limit = JS.Int z -> (0 < z)%Z ->
  exists older,
    fst (get_messages (Some uid) (Some cid) None limit
           (snd (on_send_message g sock (Some cid) (Some kind) text fileUrl s)))
    = Done (json (BMessages (older ++ [sent_message g sock cid kind text fileUrl]))).
Proof.
  intros Hc Hk Hconv Huser Hold Hlimit Hz.
  rewrite on_send_message_run by assumption.
  unfold get_messages, authMiddleware. rewrite (or_null_Some cid) by assumption.
  rewrite Hlimit.
  unfold bind, prisma.message_findMany, bind, log_query, get_db, ret. simpl.
  rewrite List.filter_app. simpl.
  assert (Hmatch : prisma.history_where cid None
                     (sent_message g sock cid kind text fileUrl) = true).
  { unfold prisma.history_where. simpl. now rewrite String.eqb_refl. }
  change (JS.or_null None) with (@None string). rewrite Hmatch.
  destruct (newest_first_head
              (List.filter (prisma.history_where cid None) (messages (db s)))
              (sent_message g sock cid kind text fileUrl)) as [rest Hhead].
  { intros m Hm. apply filter_In in Hm as [Hin Hw].
    apply andb_true_iff in Hw as [Hcid _]. apply String.eqb_eq in Hcid.
    simpl. now apply Hold. }
  rewrite Hhead. unfold prisma.take_rows.
  destruct (Z.leb_spec 0 z) as [_|Hneg]; [|lia].
  destruct (Z.to_nat z) as [|n] eqn:Hn; [lia|].
  simpl firstn. rewrite reverse_cons. eexists. reflexivity.
Qed.

Lemma sent_message_closes_the_next_page_witness :
  "C" <> "" /\ "text" <> ""
  /\ prisma.conversation_exists (db Scenario.server) "C" = true
  /\ prisma.user_exists (db Scenario.server) (s_uid Scenario.sockA) = true
  /\ (forall m, In m (messages (db Scenario.server)) ->
                Message.conversationId m = "C" ->
                (Message.createdAt m < now Scenario.gen)%Z)
  /\ default (JS.Int 50) (Some (JS.Int 2)) = JS.Int 2
  /\ (0 < 2)%Z
  /\ exists older,
       fst (get_messages (Some "B") (Some "C") None (Some (JS.Int 2))
              (snd (on_send_message Scenario.gen Scenario.sockA (Some "C")
                                    (Some "text") (Some "yo") None
                                    Scenario.server)))
       = Done (json (BMessages
                       (older ++ [sent_message Scenario.gen Scenario.sockA "C"
                                               "text" (Some "yo") None]))).
Proof.
  assert (Hold : forall m, In m (messages (db Scenario.server)) ->
                           Message.conversationId m = "C" ->
                           (Message.createdAt m < now Scenario.gen)%Z).
  { intros m [<-|[<-|[]]] _; reflexivity. }
  split; [discriminate|]. split; [discriminate|]. split; [reflexivity|].
  split; [reflexivity|]. split; [exact Hold|]. split; [reflexivity|].
  split; [lia|].
  apply (sent_message_closes_the_next_page
           Scenario.gen Scenario.server Scenario.sockA "B" "C" "text"
           (Some "yo") None (Some (JS.Int 2)) 2);
    [discriminate | discriminate | reflexivity | reflexivity | exact Hold
     | reflexivity | lia].
Defined.

Lemma find_message_snoc (d : Store) (x : Message.t) :
  prisma.message_exists d (Message.id x) = false ->
  prisma.find_message
    (mkStore (users d) (conversations d) (memberships d) (messages d ++ [x]))
    (Message.id x) = Some x.
Proof.
  intros Hfresh. apply find_message_absent in Hfresh.
  unfold prisma.find_message in *. simpl messages.
  apply find_snoc_first; [exact Hfresh | apply String.eqb_refl].
Qed.

(** X5. A message that was just sent can be acknowledged: when the id the
    store gave it is not empty and was unused, [ack_delivered] by another
    socket finds it, records that socket's user as the only one the
    message was delivered to, and broadcasts
    [message_updated { msgId, deliveredTo: [user] }] to the room. *)
Theorem sent_message_can_be_acknowledged
        (g : Gen) (s : Server) (sockA sockB : Socket) (cid kind : string)
        (text fileUrl : option string) :
  cid <> "" -> kind <> "" ->
  prisma.conversation_exists (db s) cid = true ->
  prisma.user_exists (db s) (s_uid sockA) = true ->
  new_id g 0 <> "" ->
  prisma.message_exists (db s) (new_id g 0) = false ->
  let s1 := snd (on_send_message g sockA (Some cid) (Some kind) text fileUrl s) in
  exists s2,
    on_ack_delivered sockB (Some cid) (Some (new_id g 0)) s1 = (Done tt, s2)
    /\ delivered_recorded s1 s2 (new_id g 0) [s_uid sockB]
                          (room_of (rooms s) (cid_room cid)).
Proof.
  intros Hc Hk Hconv Huser Hid Hfresh s1. subst s1.
  rewrite on_send_message_run by assumption. simpl snd.
  set (msg := sent_message g sockA cid kind text fileUrl).
  set (s1 := mkServer _ _ _ _).
  assert (Hfind : prisma.find_message (db s1) (new_id g 0) = Some msg)
    by (apply (find_message_snoc (db s) msg); exact Hfresh).
  rewrite (on_ack_delivered_run s1 sockB cid (new_id g 0) msg Hc Hid Hfind).
  eexists. split; [reflexivity|]. unfold delivered_recorded. split.
  - rewrite (find_after_ack s1 (new_id g 0) _ _ msg); [reflexivity | | exact Hfind].
    reflexivity.
  - reflexivity.
Qed.

Lemma sent_message_can_be_acknowledged_witness :
  "C" <> "" /\ "text" <> ""
  /\ prisma.conversation_exists (db Scenario.server) "C" = true
  /\ prisma.user_exists (db Scenario.server) (s_uid Scenario.sockA) = true
  /\ new_id Scenario.gen 0 <> ""
  /\ prisma.message_exists (db Scenario.server) (new_id Scenario.gen 0) = false
  /\ (let s1 := snd (on_send_message Scenario.gen Scenario.sockA (Some "C")
                                     (Some "text") (Some "hi") None
                                     Scenario.server) in
      exists s2,
        on_ack_delivered Scenario.sockB (Some "C") (Some (new_id Scenario.gen 0)) s1
        = (Done tt, s2)
        /\ delivered_recorded s1 s2 (new_id Scenario.gen 0) ["B"]
                              (room_of (rooms Scenario.server) (cid_room "C"))).
Proof.
  split; [discriminate|]. split; [discriminate|]. split; [reflexivity|].
  split; [reflexivity|]. split; [discriminate|]. split; [reflexivity|].
  apply (sent_message_can_be_acknowledged
           Scenario.gen Scenario.server Scenario.sockA Scenario.sockB
           "C" "text" (Some "hi") None);
    [discriminate | discriminate | reflexivity | reflexivity | discriminate
     | reflexivity].
Defined.

Lemma update_rows_compose (msgId : string) (f h : Message.t -> Message.t)
      (rows : list Message.t) :
  (forall x, Message.id (h x) = Message.id x) ->
  prisma.update_rows msgId f (prisma.update_rows msgId h rows)
  = prisma.update_rows msgId (fun x => f (h x)) rows.
Proof.
  intros Hid. unfold prisma.update_rows. rewrite map_map.
  apply map_ext. intros x.
  destruct (String.eqb (Message.id x) msgId) eqn:E.
  - now rewrite Hid, E.
  - now rewrite E.
Qed.

(** X6. Delivery and read acknowledgments of a message do not interfere:
    handled in either order, by any two sockets and under any two
    non-empty conversation ids, they leave the same database. *)
Theorem delivered_and_read_acknowledgments_commute
        (s : Server) (sock1 sock2 : Socket) (cid1 cid2 msgId : string)
        (m : Message.t) :
  cid1 <> "" -> cid2 <> "" -> msgId <> "" ->
  prisma.find_message (db s) msgId = Some m ->
  db (snd (on_ack_read sock2 (Some cid2) (Some msgId)
             (snd (on_ack_delivered sock1 (Some cid1) (Some msgId) s))))
  = db (snd (on_ack_delivered sock1 (Some cid1) (Some msgId)
               (snd (on_ack_read sock2 (Some cid2) (Some msgId) s)))).
Proof.
  intros Hc1 Hc2 Hm Hfind.
  rewrite (on_ack_delivered_run s sock1 cid1 msgId m) by assumption.
  rewrite (on_ack_read_run s sock2 cid2 msgId m) by assumption.
  simpl snd.
  set (D := Message.with_deliveredTo (JArray (delivered_after m (s_uid sock1)))).
  set (R := Message.with_readBy (JArray (read_after m (s_uid sock2)))).
  set (e1 := mkEmit _ (MessageUpdatedDelivered _ _)).
  set (e2 := mkEmit _ (MessageUpdatedRead _ _)).
  assert (H1 : prisma.find_message (db (after_ack s msgId D e1)) msgId = Some (D m))
    by (apply find_after_ack; [reflexivity | assumption]).
  assert (H2 : prisma.find_message (db (after_ack s msgId R e2)) msgId = Some (R m))
    by (apply find_after_ack; [reflexivity | assumption]).
  rewrite (on_ack_read_run _ sock2 cid2 msgId (D m) Hc2 Hm H1).
  rewrite (on_ack_delivered_run _ sock1 cid1 msgId (R m) Hc1 Hm H2).
  unfold after_ack. simpl. f_equal.
  rewrite !update_rows_compose by reflexivity.
  unfold prisma.update_rows. apply map_ext. intros x.
  destruct (String.eqb (Message.id x) msgId); reflexivity.
Qed.

Lemma delivered_and_read_acknowledgments_commute_witness :
  "C" <> "" /\ "elsewhere" <> "" /\ "m2" <> ""
  /\ prisma.find_message (db Scenario.server) "m2" = Some Scenario.pic
  /\ db (snd (on_ack_read Scenario.sockA (Some "elsewhere") (Some "m2")
               (snd (on_ack_delivered Scenario.sockK (Some "C") (Some "m2")
                                      Scenario.server))))
     = db (snd (on_ack_delivered Scenario.sockK (Some "C") (Some "m2")
                 (snd (on_ack_read Scenario.sockA (Some "elsewhere") (Some "m2")
                                   Scenario.server)))).
Proof.
  split; [discriminate|]. split; [discriminate|]. split; [discriminate|].
  split; [reflexivity|].
  apply (delivered_and_read_acknowledgments_commute
           Scenario.server Scenario.sockK Scenario.sockA "C" "elsewhere" "m2"
           Scenario.pic);
    [discriminate | discriminate | discriminate | reflexivity].
Defined.

(** ** Rooms, end to end *)

(** X7. Joining and leaving are idempotent: a second [join_conversation]
    (or [leave_conversation]) for the same conversation id on the same
    socket leaves the server exactly as the first one left it, whether the
    id is present or not. *)
Theorem joining_twice_is_joining_once
        (s : Server) (sock : Socket) (cid : option string) :
  snd (on_join_conversation sock cid (snd (on_join_conversation sock cid s)))
  = snd (on_join_conversation sock cid s)
  /\ snd (on_leave_conversation sock cid (snd (on_leave_conversation sock cid s)))
     = snd (on_leave_conversation sock cid s).
Proof.
  unfold on_join_conversation, on_leave_conversation.
  destruct (JS.or_null cid) as [c|]; [|split; reflexivity].
  unfold socket_join, socket_leave. simpl. split; f_equal.
  - rewrite room_of_insert, insert_insert_eq. f_equal.
    apply set_eq. intros x. rewrite !elem_of_union. tauto.
  - rewrite room_of_insert, insert_insert_eq. f_equal.
    apply set_eq. intros x. rewrite !elem_of_difference. tauto.
Qed.

(** X8. Joining a room is all it takes to hear it: after any socket, of
    any user, has joined the room of a conversation, a message sent to
    that conversation is emitted to that socket; once the socket has left,
    the next message is not.  No membership is consulted. *)
Theorem a_socket_hears_a_room_from_join_to_leave
        (g : Gen) (s : Server) (sender listener : Socket) (cid kind : string)
        (text fileUrl : option string) :
  cid <> "" -> kind <> "" ->
  prisma.conversation_exists (db s) cid = true ->
  prisma.user_exists (db s) (s_uid sender) = true ->
  let joined := snd (on_join_conversation listener (Some cid) s) in
  let left := snd (on_leave_conversation listener (Some cid) joined) in
  (exists e,
      outbox (snd (on_send_message g sender (Some cid) (Some kind) text fileUrl
                                   joined))
      = outbox s ++ [e]
      /\ event e = MessageCreated (sent_message g sender cid kind text fileUrl)
      /\ sid listener ∈ recipients e)
  /\ (exists e,
         outbox (snd (on_send_message g sender (Some cid) (Some kind) text fileUrl
                                      left))
         = outbox s ++ [e]
         /\ event e = MessageCreated (sent_message g sender cid kind text fileUrl)
         /\ sid listener ∉ recipients e).
Proof.
  intros Hc Hk Hconv Huser joined left. subst joined left.
  unfold on_join_conversation, on_leave_conversation.
  rewrite !or_null_Some by assumption.
  unfold socket_join, socket_leave. simpl snd. split.
  - rewrite on_send_message_run by assumption.
    eexists. split; [reflexivity|]. split; [reflexivity|]. simpl.
    rewrite room_of_insert, elem_of_union, elem_of_singleton. now left.
  - rewrite on_send_message_run by assumption.
    eexists. split; [reflexivity|]. split; [reflexivity|]. simpl.
    rewrite !room_of_insert, elem_of_difference, elem_of_singleton. tauto.
Qed.

Lemma a_socket_hears_a_room_from_join_to_leave_witness :
  "C" <> "" /\ "text" <> ""
  /\ prisma.conversation_exists (db Scenario.server) "C" = true
  /\ prisma.user_exists (db Scenario.server) (s_uid Scenario.sockA) = true
  /\ prisma.has_member (db Scenario.server) "C" (s_uid Scenario.sockK) = false
  /\ exists e,
       outbox (snd (on_send_message Scenario.gen Scenario.sockA (Some "C")
                      (Some "text") (Some "psst") None
                      (snd (on_join_conversation Scenario.sockK (Some "C")
                                                 Scenario.server))))
       = outbox Scenario.server ++ [e]
       /\ event e = MessageCreated (sent_message Scenario.gen Scenario.sockA "C"
                                                 "text" (Some "psst") None)
       /\ sid Scenario.sockK ∈ recipients e.
Proof.
  split; [discriminate|]. split; [discriminate|]. split; [reflexivity|].
  split; [reflexivity|]. split; [reflexivity|].
  apply (a_socket_hears_a_room_from_join_to_leave
           Scenario.gen Scenario.server Scenario.sockA Scenario.sockK
           "C" "text" (Some "psst") None);
    [discriminate | discriminate | reflexivity | reflexivity].
Defined.

(** * Accounts *)

Lemma find_user_by_email_none (d : Store) (email : string) :
  prisma_app.find_user_by_email d email = None <->
  existsb (fun u => String.eqb (User.email u) email) (users d) = false.
Proof.
  unfold prisma_app.find_user_by_email.
  induction (users d) as [|u us IH]; simpl; [tauto|].
  destruct (String.eqb (User.email u) email); simpl; [split; discriminate | exact IH].
Qed.

Lemma email_not_in_users (d : Store) (email : string) :
  existsb (fun u => String.eqb (User.email u) email) (users d) = false ->
  ~ In email (map User.email (users d)).
Proof.
  intros Hnone Hin. apply in_map_iff in Hin as (u & Hu & Hin).
  assert (H : existsb (fun u => String.eqb (User.email u) email) (users d) = true).
  { apply existsb_exists. exists u. split; [exact Hin | now apply String.eqb_eq]. }
  congruence.
Qed.

(** The steps of [POST /auth/register] on a body that carries the three
    fields. *)
Lemma auth_register_run (B : Bcrypt) (g : Gen) (salt email password displayName : string)
      (a : App) :
  email <> "" -> password <> "" -> displayName <> "" ->
  auth_register B g salt (Some email) (Some password) (Some displayName) a =
    match prisma_app.find_user_by_email (db (core a)) email with
    | Some _ =>
        (Fine (reply_error 409 "email already registered"),
         mkApp (core a) (subscriptions a) (calls a ++ [UserFindUnique]) (presences a))
    | None =>
        (Fine (reply_json
                 (session_of email (registered_user B g salt email password displayName))),
         mkApp (mkServer
                  (mkStore (users (db (core a))
                            ++ [registered_user B g salt email password displayName])
                           (conversations (db (core a))) (memberships (db (core a)))
                           (messages (db (core a))))
                  (rooms (core a)) (queries (core a)) (outbox (core a)))
               (subscriptions a) (calls a ++ [UserFindUnique; UserCreate])
               (presences a))
    end.
Proof.
  intros He Hp Hn. unfold auth_register, htry.
  rewrite !or_null_Some by assumption.
  unfold hbind at 1. unfold prisma_app.user_findUnique_email, hbind, log_call,
    get_store, hret. simpl.
  destruct (prisma_app.find_user_by_email (db (core a)) email) eqn:Hfind;
    [reflexivity|].
  apply find_user_by_email_none in Hfind.
  unfold prisma_app.user_create, hbind, log_call, get_store, put_store, hret,
    with_store, with_core. simpl.
  rewrite Hfind. simpl. rewrite <- app_assoc. reflexivity.
Qed.

Lemma auth_register_missing (B : Bcrypt) (g : Gen) (salt : string)
      (email password displayName : option string) (a : App) :
  JS.truthy email && JS.truthy password && JS.truthy displayName = false ->
  auth_register B g salt email password displayName a
  = (Fine (reply_error 400 "email, password, displayName required"), a).
Proof.
  intros H. unfold auth_register, htry.
  apply andb_false_iff in H as [H|H];
    [apply andb_false_iff in H as [H|H]|]; apply or_null_None in H; rewrite H.
  - reflexivity.
  - destruct (JS.or_null email); reflexivity.
  - destruct (JS.or_null email), (JS.or_null password); reflexivity.
Qed.

(** X9. Registration never breaks the unique index on emails: starting
    from distinct emails, a request whose body fields are text or absent
    is answered 400, 409 or 200, the emails of the user table are still
    distinct afterwards, and the store is untouched unless the answer is
    200. *)
Theorem registration_keeps_emails_unique
        (B : Bcrypt) (g : Gen) (salt : string)
        (email password displayName : option string) (a : App) :
  emails_unique (db (core a)) ->
  let r := auth_register B g salt email password displayName a in
  emails_unique (db (core (snd r)))
  /\ exists reply,
       fst r = Fine reply
       /\ (reply_status reply = 400 \/ reply_status reply = 409
           \/ reply_status reply = 200)
       /\ (reply_status reply <> 200 -> db (core (snd r)) = db (core a)).
Proof.
  intros Huniq r. subst r.
  destruct (JS.truthy email && JS.truthy password && JS.truthy displayName)
    eqn:Hfields.
  - apply andb_true_iff in Hfields as [Hfields Hn].
    apply andb_true_iff in Hfields as [He Hp].
    destruct email as [e|], password as [p|], displayName as [n|];
      try discriminate.
    simpl in He, Hp, Hn. apply negb_true_iff in He, Hp, Hn.
    apply String.eqb_neq in He, Hp, Hn.
    rewrite auth_register_run by assumption.
    destruct (prisma_app.find_user_by_email (db (core a)) e) eqn:Hfind.
    + split; [exact Huniq|]. eexists. split; [reflexivity|].
      split; [right; now left | reflexivity].
    + split.
      * unfold emails_unique. simpl. rewrite map_app. simpl.
        apply NoDup_app. split; [exact Huniq|]. split; [|apply NoDup_singleton].
        intros x Hx Hx'. rewrite list_elem_of_singleton in Hx'. subst x.
        apply find_user_by_email_none, email_not_in_users in Hfind.
        now rewrite list_elem_of_In in Hx.
      * eexists. split; [reflexivity|].
        split; [right; now right | intros H; now contradiction H].
  - rewrite auth_register_missing by assumption.
    split; [exact Huniq|]. eexists. split; [reflexivity|].
    split; [now left | reflexivity].
Qed.

Lemma registration_keeps_emails_unique_witness :
  emails_unique (db (core Site.app))
  /\ let r := auth_register Site.bcrypt Scenario.gen "$2a$10$"
                           (Some "a@x.com") (Some "pw") (Some "Alice 2")
                           Site.app in
     emails_unique (db (core (snd r)))
     /\ exists reply,
          fst r = Fine reply
          /\ (reply_status reply = 400 \/ reply_status reply = 409
              \/ reply_status reply = 200)
          /\ (reply_status reply <> 200 -> db (core (snd r)) = db (core Site.app)).
Proof.
  assert (H : emails_unique (db (core Site.app))).
  { unfold emails_unique. simpl.
    repeat (apply NoDup_cons; split;
            [rewrite ?elem_of_cons, ?elem_of_nil; intuition discriminate|]).
    apply NoDup_nil. exact I. }
  split; [exact H|].
  apply (registration_keeps_emails_unique
           Site.bcrypt Scenario.gen "$2a$10$" (Some "a@x.com") (Some "pw")
           (Some "Alice 2") Site.app H).
Defined.

Lemma find_user_by_email_snoc (d : Store) (u : User.t) (email : string) :
  User.email u = email ->
  prisma_app.find_user_by_email d email = None ->
  prisma_app.find_user_by_email
    (mkStore (users d ++ [u]) (conversations d) (memberships d) (messages d))
    email = Some u.
Proof.
  unfold prisma_app.find_user_by_email. simpl users. intros <- Hnone.
  apply find_snoc_first; [exact Hnone | apply String.eqb_refl].
Qed.

Lemma find_user_none (d : Store) (uid : string) :
  prisma_app.find_user d uid = None <-> prisma.user_exists d uid = false.
Proof.
  unfold prisma_app.find_user, prisma.user_exists.
  induction (users d) as [|u us IH]; simpl; [tauto|].
  destruct (String.eqb (User.id u) uid); simpl; [split; discriminate | exact IH].
Qed.

Lemma find_user_snoc (d : Store) (u : User.t) (uid : string) :
  User.id u = uid ->
  prisma.user_exists d uid = false ->
  prisma_app.find_user
    (mkStore (users d ++ [u]) (conversations d) (memberships d) (messages d))
    uid = Some u.
Proof.
  intros <- Hnone. apply find_user_none in Hnone.
  unfold prisma_app.find_user in *. simpl users.
  apply find_snoc_first; [exact Hnone | apply String.eqb_refl].
Qed.

Lemma auth_login_run (B : Bcrypt) (email password : string) (a : App) :
  auth_login B email password a =
    (Fine match prisma_app.find_user_by_email (db (core a)) email with
          | Some u => if bcrypt_compare B password (User.passwordHash u)
                      then reply_json (session_of email u)
                      else invalid_credentials
          | None => invalid_credentials
          end,
     mkApp (core a) (subscriptions a) (calls a ++ [UserFindUnique]) (presences a)).
Proof.
  unfold auth_login, htry, hbind, prisma_app.user_findUnique_email, hbind,
    log_call, get_store, hret. simpl.
  destruct (prisma_app.find_user_by_email (db (core a)) email) as [u|];
    [|reflexivity].
  destruct (bcrypt_compare B password (User.passwordHash u)); reflexivity.
Qed.

Lemma get_me_run (uid : string) (a : App) :
  get_me (Some uid) a =
    (match prisma_app.find_user (db (core a)) uid with
     | Some u => Fine (reply_json (mkProfile (User.id u) (User.email u)
                                             (User.displayName u)
                                             (User.lastSeenAt u)))
     | None => Failed (CoreFault TypeError)
     end,
     mkApp (core a) (subscriptions a) (calls a ++ [UserFindUnique]) (presences a)).
Proof.
  unfold get_me, authMiddlewareH, hbind, prisma_app.user_findUnique_id, hbind,
    log_call, get_store, hret, hthrow. simpl.
  destruct (prisma_app.find_user (db (core a)) uid); reflexivity.
Qed.

(** X10. Register, then log in, then ask who I am.  A registration with
    three non-empty fields and an email no user has is answered 200 with a
    session whose token carries the new user's id and email; the password
    is stored hashed; logging in right after with the same email and
    password (which [bcrypt.compare] accepts against the hash just made)
    is answered with the same session; and [GET /me] under that token
    answers the new profile (the generated id being unused). *)
Theorem register_then_login_then_me
        (B : Bcrypt) (g : Gen) (salt email password displayName : string)
        (a : App) :
  email <> "" -> password <> "" -> displayName <> "" ->
  prisma_app.find_user_by_email (db (core a)) email = None ->
  prisma.user_exists (db (core a)) (new_id g 0) = false ->
  bcrypt_compare B password (bcrypt_hash B salt password) = true ->
  let r := auth_register B g salt (Some email) (Some password) (Some displayName) a in
  exists session,
    fst r = Fine (reply_json session)
    /\ users (db (core (snd r)))
       = users (db (core a))
         ++ [User.mk (new_id g 0) email (bcrypt_hash B salt password) displayName
                     None (now g) (now g)]
    /\ account_round_trip B g email password displayName (snd r) session.
Proof.
  intros He Hp Hn Hnew Hfresh Hbcrypt r. subst r.
  rewrite auth_register_run by assumption. rewrite Hnew.
  set (u := registered_user B g salt email password displayName).
  eexists. split; [reflexivity|]. split; [reflexivity|].
  unfold account_round_trip. simpl snd.
  split; [reflexivity|]. split; [reflexivity|]. split.
  - rewrite auth_login_run. simpl fst. simpl db.
    rewrite (find_user_by_email_snoc (db (core a)) u email eq_refl Hnew).
    simpl User.passwordHash. now rewrite Hbcrypt.
  - simpl tok_uid. rewrite get_me_run. simpl fst. simpl db.
    rewrite (find_user_snoc (db (core a)) u (new_id g 0) eq_refl Hfresh).
    reflexivity.
Qed.

Lemma register_then_login_then_me_witness :
  "d@z.io" <> "" /\ "s3cret" <> "" /\ "Dora" <> ""
  /\ prisma_app.find_user_by_email (db (core Site.app)) "d@z.io" = None
  /\ prisma.user_exists (db (core Site.app)) (new_id Scenario.gen 0) = false
  /\ bcrypt_compare Site.bcrypt "s3cret" (bcrypt_hash Site.bcrypt "$2a$10$" "s3cret")
     = true
  /\ exists session,
       fst (auth_register Site.bcrypt Scenario.gen "$2a$10$" (Some "d@z.io")
                          (Some "s3cret") (Some "Dora") Site.app)
       = Fine (reply_json session)
       /\ users (db (core (snd (auth_register Site.bcrypt Scenario.gen "$2a$10$"
                                              (Some "d@z.io") (Some "s3cret")
                                              (Some "Dora") Site.app))))
          = users (db (core Site.app))
            ++ [User.mk (new_id Scenario.gen 0) "d@z.io"
                        (bcrypt_hash Site.bcrypt "$2a$10$" "s3cret") "Dora"
                        None (now Scenario.gen) (now Scenario.gen)]
       /\ account_round_trip Site.bcrypt Scenario.gen "d@z.io" "s3cret" "Dora"
            (snd (auth_register Site.bcrypt Scenario.gen "$2a$10$" (Some "d@z.io")
                                (Some "s3cret") (Some "Dora") Site.app))
            session.
Proof.
  split; [discriminate|]. split; [discriminate|]. split; [discriminate|].
  split; [reflexivity|]. split; [reflexivity|]. split; [reflexivity|].
  apply (register_then_login_then_me
           Site.bcrypt Scenario.gen "$2a$10$" "d@z.io" "s3cret" "Dora" Site.app);
    [discriminate | discriminate | discriminate | reflexivity | reflexivity
     | reflexivity].
Defined.

(** X11. Logging in never writes, and it fails the same way for an unknown
    email as for a wrong password: whatever the email and the password,
    the database, the subscriptions, the rooms and the emitted events are
    untouched, and the answer is either 401 "invalid_credentials" or, when
    the first user with that email has a hash that [bcrypt.compare]
    accepts, 200 with that user's session. *)
Theorem login_never_writes_and_fails_uniformly
        (B : Bcrypt) (email password : string) (a : App) :
  let r := auth_login B email password a in
  core (snd r) = core a
  /\ subscriptions (snd r) = subscriptions a
  /\ presences (snd r) = presences a
  /\ (fst r = Fine invalid_credentials
      \/ exists u,
           prisma_app.find_user_by_email (db (core a)) email = Some u
           /\ bcrypt_compare B password (User.passwordHash u) = true
           /\ fst r = Fine (reply_json (session_of email u)))
  /\ (prisma_app.find_user_by_email (db (core a)) email = None ->
      fst r = Fine invalid_credentials)
  /\ (forall u, prisma_app.find_user_by_email (db (core a)) email = Some u ->
                bcrypt_compare B password (User.passwordHash u) = false ->
                fst r = Fine invalid_credentials).
Proof.
  intros r. subst r. rewrite auth_login_run. simpl.
  do 3 (split; [reflexivity|]).
  destruct (prisma_app.find_user_by_email (db (core a)) email) as [u|] eqn:Hfind.
  - destruct (bcrypt_compare B password (User.passwordHash u)) eqn:Hcmp.
    + split; [right; exists u; repeat split; assumption|].
      split; [discriminate|]. intros u' [= <-]. congruence.
    + split; [now left|]. split; [discriminate|]. reflexivity.
  - split; [now left|]. split; [reflexivity|]. discriminate.
Qed.

(** X12. [GET /me] reads the user of the token without a null check: when
    the token's user id names a row the answer is that row's id, email,
    display name and last-seen time; when it names none the handler throws
    a [TypeError] that nothing catches.  Either way nothing is written. *)
Theorem me_is_the_row_of_the_token_or_a_type_error (uid : string) (a : App) :
  let r := get_me (Some uid) a in
  core (snd r) = core a
  /\ subscriptions (snd r) = subscriptions a
  /\ match List.find (fun u => String.eqb (User.id u) uid) (users (db (core a))) with
     | Some u =>
         prisma.user_exists (db (core a)) uid = true
         /\ User.id u = uid
         /\ fst r = Fine (reply_json (mkProfile uid (User.email u)
                                                (User.displayName u)
                                                (User.lastSeenAt u)))
     | None =>
         prisma.user_exists (db (core a)) uid = false
         /\ fst r = Failed (CoreFault TypeError)
     end.
Proof.
  intros r. subst r. rewrite get_me_run. simpl.
  split; [reflexivity|]. split; [reflexivity|].
  unfold prisma_app.find_user.
  destruct (List.find _ (users (db (core a)))) as [u|] eqn:Hfind.
  - pose proof (find_some _ _ Hfind) as [Hin Hid]. apply String.eqb_eq in Hid.
    split; [|split; [exact Hid | now rewrite Hid]].
    apply existsb_exists. exists u. split; [exact Hin | now apply String.eqb_eq].
  - split; [|reflexivity]. now apply find_user_none.
Qed.

(** * Presence *)

Lemma rooms_differ (uid cid : string) : user_room uid <> cid_room cid.
Proof. unfold user_room, cid_room. rewrite !append_cons. discriminate. Qed.

(** X13. A new connection joins the room of its user and no other: the
    socket is put in room [user:<uid>], every conversation room is as it
    was, the database is untouched and one "online" presence event for the
    user is emitted. *)
Theorem connection_joins_only_the_user_room (t : Z) (sock : Socket) (a : App) :
  let r := on_connection t sock a in
  fst r = Fine tt
  /\ db (core (snd r)) = db (core a)
  /\ sid sock ∈ room_of (rooms (core (snd r))) (user_room (s_uid sock))
  /\ (forall cid, room_of (rooms (core (snd r))) (cid_room cid)
                  = room_of (rooms (core a)) (cid_room cid))
  /\ outbox (core (snd r)) = outbox (core a)
  /\ presences (snd r) = presences a ++ [mkPresence (s_uid sock) "online" t].
Proof.
  intros r. subst r.
  unfold on_connection, hbind, lift_core, socket_join, io_emit_presence, with_core.
  simpl. split; [reflexivity|]. split; [reflexivity|]. split.
  - rewrite room_of_insert, elem_of_union, elem_of_singleton. now left.
  - split; [|split; reflexivity].
    intros cid. apply room_of_insert_ne, rooms_differ.
Qed.

Lemma user_update_lastSeenAt_rows (uid : string) (t : Z) (rows : list User.t) :
  Forall2 (fun old new => same_but_lastSeenAt old new
                          /\ User.lastSeenAt new
                             = if String.eqb (User.id old) uid
                               then t else User.lastSeenAt old)
          rows
          (map (fun u => if String.eqb (User.id u) uid
                         then prisma_app.set_lastSeenAt t u else u) rows).
Proof.
  induction rows as [|u rows IH]; simpl; constructor; [|exact IH].
  destruct (String.eqb (User.id u) uid); unfold same_but_lastSeenAt; simpl;
    repeat split; reflexivity.
Qed.

(** X14. Disconnection stamps the user and announces it, or does neither.
    When the socket's user has a row, [lastSeenAt] of that user becomes
    the first clock reading, every other column and every other row and
    table is unchanged, and one "offline" presence event is emitted with
    the second reading; the user's other sockets are not looked at.  When
    the user has no row the update throws, nothing is written and no
    presence event is emitted. *)
Theorem disconnect_stamps_last_seen_or_throws
        (t1 t2 : Z) (sock : Socket) (a : App) :
  let r := on_disconnect t1 t2 sock a in
  conversations (db (core (snd r))) = conversations (db (core a))
  /\ memberships (db (core (snd r))) = memberships (db (core a))
  /\ messages (db (core (snd r))) = messages (db (core a))
  /\ rooms (core (snd r)) = rooms (core a)
  /\ subscriptions (snd r) = subscriptions a
  /\ if prisma.user_exists (db (core a)) (s_uid sock)
     then fst r = Fine tt
          /\ presences (snd r)
             = presences a ++ [mkPresence (s_uid sock) "offline" t2]
          /\ Forall2 (fun old new =>
                        same_but_lastSeenAt old new
                        /\ User.lastSeenAt new
                           = if String.eqb (User.id old) (s_uid sock)
                             then t1 else User.lastSeenAt old)
                     (users (db (core a))) (users (db (core (snd r))))
     else fst r = Failed (CoreFault RecordNotFound)
          /\ presences (snd r) = presences a
          /\ users (db (core (snd r))) = users (db (core a)).
Proof.
  intros r. subst r.
  unfold on_disconnect, hbind, prisma_app.user_update_lastSeenAt, hbind,
    log_call, get_store, put_store, hthrow, io_emit_presence, with_store, with_core.
  simpl.
  destruct (prisma.user_exists (db (core a)) (s_uid sock)); simpl.
  - do 5 (split; [reflexivity|]). split; [reflexivity|]. split; [reflexivity|].
    apply user_update_lastSeenAt_rows.
  - repeat split.
Qed.

(** * Push subscriptions *)

Lemma upsert_rows_users (uid body : string) (subs : list Subscription.t) :
  map Subscription.userId
      (map (fun r => if String.eqb (Subscription.userId r) uid
                     then Subscription.mk (Subscription.id r) uid body else r)
           subs)
  = map Subscription.userId subs.
Proof.
  rewrite map_map. apply map_ext. intros r.
  destruct (String.eqb_spec (Subscription.userId r) uid) as [E|E];
    [simpl; now rewrite E | reflexivity].
Qed.

Lemma upsert_rows_others (uid body : string) (subs : list Subscription.t) :
  List.filter (fun row => negb (String.eqb (Subscription.userId row) uid))
              (map (fun r => if String.eqb (Subscription.userId r) uid
                             then Subscription.mk (Subscription.id r) uid body
                             else r)
                   subs)
  = List.filter (fun row => negb (String.eqb (Subscription.userId row) uid)) subs.
Proof.
  induction subs as [|row rows IH]; [reflexivity|]. simpl.
  destruct (String.eqb (Subscription.userId row) uid) eqn:E; simpl.
  - rewrite String.eqb_refl. simpl. exact IH.
  - rewrite E. simpl. now rewrite IH.
Qed.

Lemma has_subscription_In (subs : list Subscription.t) (uid : string) :
  prisma_app.has_subscription subs uid = true
  <-> In uid (map Subscription.userId subs).
Proof.
  unfold prisma_app.has_subscription. rewrite existsb_exists, in_map_iff.
  split; intros (r & H1 & H2).
  - apply String.eqb_eq in H2. now exists r.
  - exists r. split; [exact H2 | now apply String.eqb_eq].
Qed.

(** X15. [POST /push/subscribe] is an upsert on the user.  Starting from at
    most one subscription per user, there is still at most one per user
    afterwards; the subscriptions of the other users are the same rows in
    the same order; and when the user already had a row or has a user row
    the answer is 201 and the user's subscription holds the body just
    posted, while for a user with neither the insert is refused by the
    foreign key and the table is unchanged. *)
Theorem subscribing_keeps_one_row_per_user
        (g : Gen) (uid body : string) (a : App) :
  one_subscription_per_user (subscriptions a) ->
  let r := push_subscribe g (Some uid) body a in
  let other := fun row => negb (String.eqb (Subscription.userId row) uid) in
  one_subscription_per_user (subscriptions (snd r))
  /\ List.filter other (subscriptions (snd r))
     = List.filter other (subscriptions a)
  /\ core (snd r) = core a
  /\ if prisma_app.has_subscription (subscriptions a) uid
        || prisma.user_exists (db (core a)) uid
     then fst r = Fine (mkReply 201 (inr tt))
          /\ exists row, In row (subscriptions (snd r))
                         /\ Subscription.userId row = uid
                         /\ Subscription.json row = body
     else fst r = Failed (CoreFault ForeignKeyFailed)
          /\ subscriptions (snd r) = subscriptions a.
Proof.
  intros Hone r other. subst r.
  unfold push_subscribe, authMiddlewareH, hbind, prisma_app.subscription_upsert,
    hbind, log_call, hret.
  simpl.
  destruct (prisma_app.has_subscription (subscriptions a) uid) eqn:Hhas; simpl.
  - split; [|split; [|split; [reflexivity|split; [reflexivity|]]]].
    + unfold one_subscription_per_user. now rewrite upsert_rows_users.
    + apply upsert_rows_others.
    + apply has_subscription_In, in_map_iff in Hhas as (row & Hrow & Hin).
      exists (Subscription.mk (Subscription.id row) uid body).
      split; [|split; reflexivity].
      apply in_map_iff. exists row. split; [|exact Hin].
      rewrite Hrow, String.eqb_refl. reflexivity.
  - destruct (prisma.user_exists (db (core a)) uid); simpl.
    + split; [|split; [|split; [reflexivity|split; [reflexivity|]]]].
      * unfold one_subscription_per_user. rewrite map_app. simpl.
        apply NoDup_app. split; [exact Hone|]. split; [|apply NoDup_singleton].
        intros x Hx Hx'. rewrite list_elem_of_singleton in Hx'. subst x.
        rewrite list_elem_of_In in Hx. apply has_subscription_In in Hx.
        congruence.
      * rewrite List.filter_app. simpl. unfold other at 2. simpl.
        rewrite String.eqb_refl. simpl. apply app_nil_r.
      * eexists. split; [apply in_or_app; right; now left|]. split; reflexivity.
    + repeat split. exact Hone.
Qed.

Lemma subscribing_keeps_one_row_per_user_witness :
  one_subscription_per_user (subscriptions Site.subscribed)
  /\ one_subscription_per_user
       (subscriptions (snd (push_subscribe Scenario.gen (Some "A")
                                           "{endpoint}" Site.subscribed)))
  /\ map Subscription.json
         (subscriptions (snd (push_subscribe Scenario.gen (Some "A")
                                             "{endpoint}" Site.subscribed)))
     = ["{endpoint}"].
Proof.
  assert (H : one_subscription_per_user (subscriptions Site.subscribed))
    by apply NoDup_singleton.
  split; [exact H|]. split; [|reflexivity].
  apply (subscribing_keeps_one_row_per_user
           Scenario.gen "A" "{endpoint}" Site.subscribed H).
Defined.

(** * Conversation lists *)

Lemma get_conversations_run (uid : string) (a : App) :
  get_conversations (Some uid) a =
    (Fine (reply_json (conversations_listed (db (core a)) uid)),
     mkApp (core a) (subscriptions a) (calls a ++ [MembershipFindMany])
           (presences a)).
Proof.
  unfold get_conversations, authMiddlewareH, hbind, prisma_app.membership_findMany,
    hbind, log_call, get_store, hret, conversations_listed.
  simpl. now rewrite map_map.
Qed.

Lemma find_conversation_Some (d : Store) (cid : string) (c : Conversation.t) :
  prisma_app.find_conversation d cid = Some c ->
  In c (conversations d) /\ Conversation.id c = cid.
Proof.
  unfold prisma_app.find_conversation. intros H.
  apply find_some in H as [Hin Hid]. now apply String.eqb_eq in Hid.
Qed.

Lemma find_conversation_exists (d : Store) (cid : string) :
  prisma.conversation_exists d cid = true ->
  exists c, prisma_app.find_conversation d cid = Some c.
Proof.
  unfold prisma.conversation_exists, prisma_app.find_conversation.
  induction (conversations d) as [|c cs IH]; simpl; [discriminate|].
  destruct (String.eqb (Conversation.id c) cid); [eauto | exact IH].
Qed.

(** With distinct ids, looking a stored conversation up by its id gives it
    back. *)
Lemma find_conversation_In (d : Store) (c : Conversation.t) :
  NoDup (map Conversation.id (conversations d)) ->
  In c (conversations d) ->
  prisma_app.find_conversation d (Conversation.id c) = Some c.
Proof.
  unfold prisma_app.find_conversation.
  induction (conversations d) as [|x cs IH]; simpl; intros Hnd Hin; [contradiction|].
  apply NoDup_cons in Hnd as [Hx Hnd].
  destruct (String.eqb_spec (Conversation.id x) (Conversation.id c)) as [E|E].
  - destruct Hin as [->|Hin]; [reflexivity|].
    exfalso. apply Hx. rewrite E, list_elem_of_In. apply in_map_iff. now exists c.
  - destruct Hin as [->|Hin]; [contradiction|]. now apply IH.
Qed.

Lemma listed_iff (d : Store) (uid : string) (c : Conversation.t) :
  NoDup (map Conversation.id (conversations d)) ->
  In (Some c) (conversations_listed d uid)
  <-> In c (conversations d) /\ prisma.has_member d (Conversation.id c) uid = true.
Proof.
  intros Hnd. unfold conversations_listed, prisma.has_member.
  rewrite in_map_iff, existsb_exists. split.
  - intros (m & Hfind & Hm). apply filter_In in Hm as [Hin Hu].
    apply find_conversation_Some in Hfind as [Hc Hid].
    split; [exact Hc|]. exists m. split; [exact Hin|].
    apply andb_true_iff. split; [|exact Hu]. apply String.eqb_eq. congruence.
  - intros (Hc & m & Hin & Hm). apply andb_true_iff in Hm as [Hcid Hu].
    apply String.eqb_eq in Hcid.
    exists m. split; [rewrite Hcid; now apply find_conversation_In|].
    apply filter_In. split; assumption.
Qed.

(** X16. [GET /conversations] lists the conversations of the caller's
    memberships.  On a store that honours the membership foreign keys and
    has distinct conversation ids, the answer has one entry per membership
    row of the caller, none of them null, and a conversation is listed
    exactly when it is stored and the caller holds a membership in it;
    nothing is written. *)
Theorem conversation_list_is_the_callers_memberships (uid : string) (a : App) :
  membership_keys_ok (db (core a)) = true ->
  NoDup (map Conversation.id (conversations (db (core a)))) ->
  exists listed,
    fst (get_conversations (Some uid) a) = Fine (reply_json (map Some listed))
    /\ core (snd (get_conversations (Some uid) a)) = core a
    /\ length listed
       = length (List.filter (fun m => String.eqb (Membership.userId m) uid)
                             (memberships (db (core a))))
    /\ forall c, In c listed <->
                 In c (conversations (db (core a)))
                 /\ prisma.has_member (db (core a)) (Conversation.id c) uid = true.
Proof.
  intros Hok Hnd. rewrite get_conversations_run. simpl.
  assert (Hsome : exists listed,
             conversations_listed (db (core a)) uid = map Some listed).
  { unfold conversations_listed.
    assert (Hall : forall m,
               In m (List.filter (fun m => String.eqb (Membership.userId m) uid)
                                 (memberships (db (core a)))) ->
               prisma.conversation_exists (db (core a))
                                          (Membership.conversationId m) = true).
    { intros m Hm. apply filter_In in Hm as [Hin _].
      unfold membership_keys_ok in Hok. rewrite forallb_forall in Hok.
      specialize (Hok m Hin). now apply andb_true_iff in Hok as [_ Hc]. }
    induction (List.filter _ (memberships (db (core a)))) as [|m ms IH].
    - now exists [].
    - destruct IH as [listed IH]; [intros x Hx; apply Hall; now right|].
      destruct (find_conversation_exists _ _ (Hall m (or_introl eq_refl)))
        as [c Hc].
      exists (c :: listed). simpl. now rewrite Hc, IH. }
  destruct Hsome as [listed Hlisted]. exists listed.
  split; [now rewrite Hlisted|]. split; [reflexivity|]. split.
  - apply (f_equal (@length _)) in Hlisted.
    unfold conversations_listed in Hlisted.
    now rewrite !length_map in Hlisted.
  - intros c. rewrite <- (listed_iff _ uid c Hnd), Hlisted, in_map_iff.
    split; [intros H; now exists c | intros (x & [= ->] & H); exact H].
Qed.

Lemma conversation_list_is_the_callers_memberships_witness :
  membership_keys_ok (db (core Site.app)) = true
  /\ NoDup (map Conversation.id (conversations (db (core Site.app))))
  /\ fst (get_conversations (Some "B") Site.app)
     = Fine (reply_json [Some Scenario.convC])
  /\ exists listed,
       fst (get_conversations (Some "B") Site.app) = Fine (reply_json (map Some listed))
       /\ core (snd (get_conversations (Some "B") Site.app)) = core Site.app
       /\ length listed
          = length (List.filter (fun m => String.eqb (Membership.userId m) "B")
                                (memberships (db (core Site.app))))
       /\ forall c, In c listed <->
                    In c (conversations (db (core Site.app)))
                    /\ prisma.has_member (db (core Site.app)) (Conversation.id c) "B"
                       = true.
Proof.
  assert (Hnd : NoDup (map Conversation.id (conversations (db (core Site.app)))))
    by apply NoDup_singleton.
  split; [reflexivity|]. split; [exact Hnd|]. split; [reflexivity|].
  apply (conversation_list_is_the_callers_memberships "B" Site.app);
    [reflexivity | exact Hnd].
Defined.

(** X17. What [POST /conversations] returns is what [GET /conversations]
    lists.  On a consistent store, when a request is answered 200 with a
    conversation, reused or new, direct or group, that conversation
    appears in the list of the requester and of every member the request
    named, as soon as the request is done. *)
Theorem returned_conversation_is_listed_for_every_member
        (g : Gen) (s : Server) (uid : string) (memberIds : list string)
        (isGroup : bool) (title : option string)
        (c : Conversation.t) (ms : list Membership.t) (a : App) (x : string) :
  store_inv (db s) ->
  prisma.conversation_exists (db s) (new_id g 0) = false ->
  fst (post_conversations g (Some uid) memberIds isGroup title s)
  = Done (json (BConversation c ms)) ->
  core a = snd (post_conversations g (Some uid) memberIds isGroup title s) ->
  x = uid \/ In x memberIds ->
  exists listed,
    fst (get_conversations (Some x) a) = Fine (reply_json listed)
    /\ In (Some c) listed.
Proof.
  intros (Hkeys & Hids & Hdirect & Hone) Hfresh Hresp Hcore Hx.
  rewrite get_conversations_run. eexists. split; [reflexivity|]. simpl.
  rewrite Hcore. apply member_set_elem_of in Hx.
  destruct (post_conversations_cases g s uid memberIds isGroup title)
    as [(_ & _ & Hr) | [(_ & a0 & b0 & c0 & ms0 & HU & Hcand & _ & Hr) |
        [(_ & _ & Hr & _) | (Hall & _ & Hr & Hdb & _)]]].
  - rewrite Hr in Hresp. discriminate Hresp.
  - rewrite Hr in Hresp |- *. simpl in Hresp. injection Hresp as <- <-.
    simpl snd. simpl db.
    apply direct_candidate_Some in Hcand as (Hin & _ & Ha & Hb & _).
    apply listed_iff; [exact Hids|]. split; [exact Hin|].
    rewrite HU in Hx. destruct Hx as [<-|[<-|[]]]; assumption.
  - rewrite Hr in Hresp. discriminate Hresp.
  - rewrite Hr in Hresp. injection Hresp as <- _. rewrite Hdb.
    set (U := JS.array_from_set (uid :: memberIds)) in *.
    destruct (created_memberships_users g U) as [Husers Hconv].
    apply listed_iff.
    + now apply conversation_ids_with_conversation.
    + split; [simpl; apply in_or_app; right; now left|].
      rewrite has_member_new_conversation by assumption.
      rewrite Husers. apply existsb_exists. exists x.
      split; [exact Hx | apply String.eqb_refl].
Qed.

Lemma returned_conversation_is_listed_for_every_member_witness :
  store_inv (db Scenario.server)
  /\ prisma.conversation_exists (db Scenario.server) (new_id Scenario.gen 0) = false
  /\ exists listed,
       fst (get_conversations
              (Some "K")
              (mkApp (snd (post_conversations Scenario.gen (Some "A") ["K"] false
                                              None Scenario.server))
                     [] [] []))
       = Fine (reply_json listed)
       /\ In (Some (new_conversation Scenario.gen None)) listed.
Proof.
  split; [exact scenario_store_inv|]. split; [reflexivity|].
  apply (returned_conversation_is_listed_for_every_member
           Scenario.gen Scenario.server "A" ["K"] false None
           (new_conversation Scenario.gen None)
           (new_memberships Scenario.gen "A" "K")
           (mkApp (snd (post_conversations Scenario.gen (Some "A") ["K"] false
                                           None Scenario.server))
                  [] [] [])
           "K");
    [exact scenario_store_inv | reflexivity | reflexivity | reflexivity
     | right; left; reflexivity].
Defined.

(** * The client *)

Lemma filter_update_rows (view msgId : string) (data : Message.t -> Message.t)
      (rows : list Message.t) :
  (forall x, Message.conversationId (data x) = Message.conversationId x) ->
  prisma.update_rows msgId data (rows_of_conversation_view view rows)
  = rows_of_conversation_view view (prisma.update_rows msgId data rows).
Proof.
  intros Hconv. unfold rows_of_conversation_view, prisma.update_rows.
  induction rows as [|x rows IH]; [reflexivity|]. simpl.
  destruct (String.eqb (Message.id x) msgId) eqn:E.
  - rewrite Hconv.
    destruct (String.eqb (Message.conversationId x) view); simpl;
      [rewrite E|]; now rewrite IH.
  - destruct (String.eqb (Message.conversationId x) view); simpl;
      [rewrite E|]; now rewrite IH.
Qed.

(** X18. The client's copy follows the table.  When an acknowledgment of
    an existing message is handled, the server emits one
    [message_updated]; a client that held the rows of any conversation and
    runs its listener on that event holds exactly the rows of that
    conversation as the table now has them.  This holds for delivery and
    for read acknowledgments. *)
Theorem client_copy_follows_the_table
        (s : Server) (sock : Socket) (cid msgId : string) (m : Message.t) :
  cid <> "" -> msgId <> "" ->
  prisma.find_message (db s) msgId = Some m ->
  client_follows on_ack_delivered s sock cid msgId
  /\ client_follows on_ack_read s sock cid msgId.
Proof.
  intros Hc Hm Hfind. unfold client_follows. split; eexists _, _.
  - rewrite (on_ack_delivered_run s sock cid msgId m) by assumption.
    split; [reflexivity|]. split; [reflexivity|]. intros view me open. simpl.
    rewrite <- filter_update_rows by reflexivity. reflexivity.
  - rewrite (on_ack_read_run s sock cid msgId m) by assumption.
    split; [reflexivity|]. split; [reflexivity|]. intros view me open. simpl.
    rewrite <- filter_update_rows by reflexivity. reflexivity.
Qed.

Lemma client_copy_follows_the_table_witness :
  "C" <> "" /\ "m1" <> ""
  /\ prisma.find_message (db Scenario.server) "m1" = Some Scenario.hi
  /\ client_follows on_ack_delivered Scenario.server Scenario.sockB "C" "m1"
  /\ client_follows on_ack_read Scenario.server Scenario.sockB "C" "m1".
Proof.
  split; [discriminate|]. split; [discriminate|]. split; [reflexivity|].
  apply (client_copy_follows_the_table _ _ _ _ Scenario.hi);
    [discriminate | discriminate | reflexivity].
Defined.

(** X19. Putting a conversation first in the client's list: the
    conversation is at the head, no other entry has its id, the other
    entries are kept in their order, distinct ids stay distinct, and
    putting it first twice is putting it first once. *)
Theorem put_first_keeps_the_list_a_set
        (c : Conversation.t) (prev : list Conversation.t) :
  head (Client.put_first c prev) = Some c
  /\ (forall x, In x (tl (Client.put_first c prev)) <->
                In x prev /\ Conversation.id x <> Conversation.id c)
  /\ sublist (tl (Client.put_first c prev)) prev
  /\ (NoDup (map Conversation.id prev) ->
      NoDup (map Conversation.id (Client.put_first c prev)))
  /\ Client.put_first c (Client.put_first c prev) = Client.put_first c prev.
Proof.
  unfold Client.put_first. simpl.
  set (keep := fun x => negb (String.eqb (Conversation.id x) (Conversation.id c))).
  assert (Hkeep : forall x, In x (List.filter keep prev) <->
                            In x prev /\ Conversation.id x <> Conversation.id c).
  { intros x. rewrite filter_In. unfold keep.
    rewrite negb_true_iff, String.eqb_neq. reflexivity. }
  split; [reflexivity|]. split; [exact Hkeep|].
  split; [apply sublist_List_filter|]. split.
  - intros Hnd. apply NoDup_cons. split.
    + rewrite list_elem_of_In, in_map_iff. intros (x & Hid & Hx).
      apply Hkeep in Hx as [_ Hx]. contradiction.
    + clear Hkeep. induction prev as [|x prev IH]; simpl; [exact Hnd|].
      apply NoDup_cons in Hnd as [Hx Hnd]. destruct (keep x); simpl.
      * apply NoDup_cons. split; [|now apply IH].
        intros Hin. apply Hx. apply list_elem_of_In. apply list_elem_of_In in Hin.
        apply in_map_iff in Hin as (y & Hy & Hin).
        apply filter_In in Hin as [Hin _]. apply in_map_iff. now exists y.
      * now apply IH.
  - f_equal. unfold keep at 1. rewrite String.eqb_refl. simpl.
    clear Hkeep. induction prev as [|x prev IH]; simpl; [reflexivity|].
    destruct (keep x) eqn:E; simpl; [rewrite E|]; now rewrite IH.
Qed.




(** ** Opening a conversation *)

Lemma find_update_rows_any (msgId x : string) (data : Message.t -> Message.t)
      (rows : list Message.t) :
  (forall m, Message.id (data m) = Message.id m) ->
  List.find (fun m => String.eqb (Message.id m) x)
            (prisma.update_rows msgId data rows)
  = option_map (fun m => if String.eqb (Message.id m) msgId then data m else m)
               (List.find (fun m => String.eqb (Message.id m) x) rows).
Proof.
  intros Hid. induction rows as [|r rows IH]; simpl; [reflexivity|].
  assert (Hsame : Message.id (if String.eqb (Message.id r) msgId then data r else r)
                  = Message.id r)
    by (destruct (String.eqb (Message.id r) msgId); [apply Hid | reflexivity]).
  rewrite Hsame. destruct (String.eqb (Message.id r) x); [reflexivity | exact IH].
Qed.

Lemma message_exists_find (d : Store) (msgId : string) :
  prisma.message_exists d msgId = true ->
  exists m, prisma.find_message d msgId = Some m.
Proof.
  intros H. destruct (prisma.find_message d msgId) as [m|] eqn:E; [eauto|].
  apply find_message_absent in E. congruence.
Qed.

(** One acknowledgment, seen from the other rows: it succeeds, every id
    that named a row still does, whatever was recorded stays recorded, and
    the acknowledging user is recorded for the message. *)
Section AckStep.

Variables (s : Server) (sock : Socket) (cid msgId : string).
Hypothesis cid_ok : cid <> "".
Hypothesis msgId_ok : msgId <> "".
Hypothesis stored : prisma.message_exists (db s) msgId = true.

Lemma after_ack_keeps (m : Message.t) (data : Message.t -> Message.t) (e : Emit) :
  prisma.find_message (db s) msgId = Some m ->
  (forall x, Message.id (data x) = Message.id x) ->
  (forall u, In u (as_array (Message.deliveredTo m)) ->
             In u (as_array (Message.deliveredTo (data m)))) ->
  (forall u, In u (as_array (Message.readBy m)) ->
             In u (as_array (Message.readBy (data m)))) ->
  keeps s (after_ack s msgId data e).
Proof.
  intros Hfind Hid Hd Hr.
  assert (Hfind' : forall x,
             prisma.find_message (db (after_ack s msgId data e)) x
             = option_map (fun r => if String.eqb (Message.id r) msgId
                                    then data r else r)
                          (prisma.find_message (db s) x)).
  { intros x. unfold prisma.find_message, after_ack. simpl.
    now apply find_update_rows_any. }
  assert (Hgrow : forall (field : Message.t -> Json),
             (forall u, In u (as_array (field m)) ->
                        In u (as_array (field (data m)))) ->
             forall x u, recorded field (db s) x u ->
                         recorded field (db (after_ack s msgId data e)) x u).
  { intros field Hfield x u (r & Hx & Hu). unfold recorded.
    rewrite Hfind', Hx. simpl. eexists. split; [reflexivity|].
    destruct (String.eqb_spec (Message.id r) msgId) as [E|E]; [|exact Hu].
    assert (r = m).
    { pose proof (find_message_exists x (db s) r Hx) as (_ & Hrx & _).
      rewrite Hrx in E. subst x. congruence. }
    subst r. now apply Hfield. }
  split; [|split; [now apply Hgrow | now apply Hgrow]].
  intros x Hx. apply message_exists_find in Hx as [r Hr'].
  destruct (prisma.find_message (db (after_ack s msgId data e)) x) eqn:E.
  - now apply find_message_exists in E.
  - rewrite Hfind', Hr' in E. discriminate.
Qed.

Lemma ack_delivered_step :
  exists s1,
    on_ack_delivered sock (Some cid) (Some msgId) s = (Done tt, s1)
    /\ length (outbox s1) = S (length (outbox s))
    /\ keeps s s1
    /\ recorded Message.deliveredTo (db s1) msgId (s_uid sock).
Proof.
  destruct (message_exists_find _ _ stored) as [m Hfind].
  rewrite (on_ack_delivered_run s sock cid msgId m cid_ok msgId_ok Hfind).
  eexists. split; [reflexivity|].
  split; [simpl; rewrite length_app; simpl; lia|]. split.
  - apply (after_ack_keeps m); try assumption; try reflexivity.
    + intros u. apply push_absent_incl.
    + intros u Hu. exact Hu.
  - unfold recorded. rewrite (find_after_ack s msgId _ _ m); try assumption;
      [|reflexivity].
    eexists. split; [reflexivity|]. simpl. apply push_absent_In.
Qed.

Lemma ack_read_step :
  exists s1,
    on_ack_read sock (Some cid) (Some msgId) s = (Done tt, s1)
    /\ length (outbox s1) = S (length (outbox s))
    /\ keeps s s1
    /\ recorded Message.readBy (db s1) msgId (s_uid sock).
Proof.
  destruct (message_exists_find _ _ stored) as [m Hfind].
  rewrite (on_ack_read_run s sock cid msgId m cid_ok msgId_ok Hfind).
  eexists. split; [reflexivity|].
  split; [simpl; rewrite length_app; simpl; lia|]. split.
  - apply (after_ack_keeps m); try assumption; try reflexivity.
    + intros u Hu. exact Hu.
    + intros u. apply push_absent_incl.
  - unfold recorded. rewrite (find_after_ack s msgId _ _ m); try assumption;
      [|reflexivity].
    eexists. split; [reflexivity|]. simpl. apply push_absent_In.
Qed.

End AckStep.

Lemma keeps_refl (s : Server) : keeps s s.
Proof. repeat split; auto. Qed.

Lemma keeps_trans (s1 s2 s3 : Server) : keeps s1 s2 -> keeps s2 s3 -> keeps s1 s3.
Proof.
  intros (A1 & B1 & C1) (A2 & B2 & C2). repeat split; auto.
Qed.

Lemma ack_recorded_kept (s s1 : Server) (uid : string) (e : Client.Emitted) :
  keeps s s1 -> ack_recorded (db s) uid e -> ack_recorded (db s1) uid e.
Proof. intros (_ & Kd & Kr). destruct e; simpl; [apply Kd | apply Kr]. Qed.

Lemma ack_of_stored_kept (s s1 : Server) (e : Client.Emitted) :
  keeps s s1 -> ack_of_stored (db s) e -> ack_of_stored (db s1) e.
Proof.
  intros (K & _ & _). destruct e; simpl; intros (Hc & Hm & Hex);
    repeat split; auto.
Qed.

(** The server handles one acknowledgment of a stored message. *)
Lemma receive_step (s : Server) (sock : Socket) (e : Client.Emitted) :
  ack_of_stored (db s) e ->
  exists s1,
    receive sock e s = (Done tt, s1)
    /\ length (outbox s1) = S (length (outbox s))
    /\ keeps s s1
    /\ ack_recorded (db s1) (s_uid sock) e.
Proof.
  destruct e as [cid msgId|cid msgId]; simpl; intros (Hc & Hm & Hex).
  - exact (ack_delivered_step s sock cid msgId Hc Hm Hex).
  - exact (ack_read_step s sock cid msgId Hc Hm Hex).
Qed.

(** X21. Acknowledgments in a row.  When the server handles, one after the
    other on one socket, any list of delivery and read acknowledgments
    that each name a conversation and a stored message, none fails, one
    [message_updated] goes out per acknowledgment, every one of them is
    recorded for the socket's user at the end, and no message and no
    acknowledgment recorded earlier has been lost. *)
Theorem acknowledgments_in_a_row_are_all_recorded
        (s : Server) (sock : Socket) (es : list Client.Emitted) :
  (forall e, In e es -> ack_of_stored (db s) e) ->
  let r := receive_all sock es s in
  fst r = Done tt
  /\ length (outbox (snd r)) = length (outbox s) + length es
  /\ keeps s (snd r)
  /\ forall e, In e es -> ack_recorded (db (snd r)) (s_uid sock) e.
Proof.
  revert s. induction es as [|e es IH]; intros s Hall; cbn zeta.
  - simpl. split; [reflexivity|]. split; [lia|]. split; [apply keeps_refl|].
    intros e [].
  - destruct (receive_step s sock e (Hall e (or_introl eq_refl)))
      as (s1 & Hrun & Hout & Hkeep & Hrec).
    cbn [receive_all]. unfold bind. rewrite Hrun.
    destruct (IH s1) as (Hdone & Hlen & Hkeeps & Hrecs).
    { intros x Hx. apply (ack_of_stored_kept s s1 x Hkeep). apply Hall. now right. }
    split; [exact Hdone|]. split; [rewrite Hlen, Hout; simpl; lia|].
    split; [exact (keeps_trans _ _ _ Hkeep Hkeeps)|].
    intros x [<-|Hx]; [|now apply Hrecs].
    exact (ack_recorded_kept s1 _ (s_uid sock) e Hkeeps Hrec).
Qed.

Lemma acknowledgments_in_a_row_are_all_recorded_witness :
  (forall e, In e [Client.AckDelivered "C" "m1"; Client.AckRead "C" "m2";
                   Client.AckRead "C" "m1"] ->
             ack_of_stored (db Scenario.server) e)
  /\ (let r := receive_all Scenario.sockB
                           [Client.AckDelivered "C" "m1"; Client.AckRead "C" "m2";
                            Client.AckRead "C" "m1"]
                           Scenario.server in
      fst r = Done tt
      /\ length (outbox (snd r)) = length (outbox Scenario.server) + 3
      /\ keeps Scenario.server (snd r)
      /\ forall e, In e [Client.AckDelivered "C" "m1"; Client.AckRead "C" "m2";
                         Client.AckRead "C" "m1"] ->
                   ack_recorded (db (snd r)) "B" e).
Proof.
  assert (H : forall e, In e [Client.AckDelivered "C" "m1"; Client.AckRead "C" "m2";
                              Client.AckRead "C" "m1"] ->
                        ack_of_stored (db Scenario.server) e).
  { intros e [<-|[<-|[<-|[]]]]; repeat split; discriminate. }
  split; [exact H|].
  exact (acknowledgments_in_a_row_are_all_recorded
           Scenario.server Scenario.sockB
           [Client.AckDelivered "C" "m1"; Client.AckRead "C" "m2";
            Client.AckRead "C" "m1"] H).
Defined.
